(** * FTS gesture utilities (ftsGesture.c): model and properties

    A shallow embedding of the gesture control path of the FTS touchscreen
    driver: the stored gesture mask and its refresh flag, the push of the
    mask to the firmware, the entry into gesture mode and the decoding of
    the gesture coordinates read from the frame buffer.

    C integers are modelled as [Z].  A store into a [u8], [u16] or [u64]
    object truncates, which is written out with [u8], [u16] and [u64].  The
    [int] results of the driver are only compared and or-ed together;
    [Z.lor] on two's-complement values is the C operator [|] and stays in
    the range of [int], so no truncation appears there.  The mutex calls and
    the log calls have no effect on the modelled state and are left out. *)

From stdpp Require Import base list numbers.
From Stdlib Require Import ZArith Lia Bool.

Local Open Scope Z_scope.

(** ** Constants of the headers

    ftsGesture.c takes these from ftsSoftware.h, ftsCore.h, ftsError.h,
    ftsGesture.h and ftsIO.h.  The model is parametric in them; the two array
    dimensions are natural numbers, every other constant is an [int]. *)

Record Headers : Type := {
  OK : Z;
  ERROR_OP_NOT_ALLOW : Z;
  ERROR_DISABLE_INTER : Z;
  ERROR_ENABLE_INTER : Z;
  GESTURE_MASK_SIZE : nat;
  GESTURE_MAX_COORDS_PAIRS_REPORT : nat;
  FEAT_ENABLE : Z;
  FEAT_DISABLE : Z;
  FEAT_SEL_GESTURE : Z;
  SCAN_MODE_LOW_POWER : Z;
  EVT_ID_USER_REPORT : Z;
  EVT_TYPE_USER_GESTURE : Z;
  FTS_CMD_FRAMEBUFFER_R : Z;
  BITS_16 : Z;
  DUMMY_FRAMEBUFFER : Z
}.

(** ** Fixed-width stores *)

Definition u8 (z : Z) : Z := z mod 2 ^ 8.
Definition u16 (z : Z) : Z := z mod 2 ^ 16.
Definition u64 (z : Z) : Z := z mod 2 ^ 64.

Definition is_u8 (z : Z) : Prop := 0 <= z < 256.

(** ** The static state of ftsGesture.c *)

Record State : Type := {
  gesture_mask : list Z;
  gesture_coordinates_x : list Z;
  gesture_coordinates_y : list Z;
  gesture_coords_reported : Z;
  refreshGestureMask : Z
}.

Definition set_gesture_mask (s : State) (m : list Z) : State :=
  {| gesture_mask := m;
     gesture_coordinates_x := gesture_coordinates_x s;
     gesture_coordinates_y := gesture_coordinates_y s;
     gesture_coords_reported := gesture_coords_reported s;
     refreshGestureMask := refreshGestureMask s |}.

Definition set_refreshGestureMask (s : State) (v : Z) : State :=
  {| gesture_mask := gesture_mask s;
     gesture_coordinates_x := gesture_coordinates_x s;
     gesture_coordinates_y := gesture_coordinates_y s;
     gesture_coords_reported := gesture_coords_reported s;
     refreshGestureMask := v |}.

Definition set_gesture_coords_reported (s : State) (c : Z) : State :=
  {| gesture_mask := gesture_mask s;
     gesture_coordinates_x := gesture_coordinates_x s;
     gesture_coordinates_y := gesture_coordinates_y s;
     gesture_coords_reported := c;
     refreshGestureMask := refreshGestureMask s |}.

Definition set_gesture_coordinates (s : State) (xs ys : list Z) : State :=
  {| gesture_mask := gesture_mask s;
     gesture_coordinates_x := xs;
     gesture_coordinates_y := ys;
     gesture_coords_reported := gesture_coords_reported s;
     refreshGestureMask := refreshGestureMask s |}.

(** The state at load time: the initialisers of lines 29-33 (a static
    without initialiser is zero). *)
Definition initial_state (K : Headers) : State :=
  {| gesture_mask := replicate (GESTURE_MASK_SIZE K) 0;
     gesture_coordinates_x := replicate (GESTURE_MAX_COORDS_PAIRS_REPORT K) 0;
     gesture_coordinates_y := replicate (GESTURE_MAX_COORDS_PAIRS_REPORT K) 0;
     gesture_coords_reported := ERROR_OP_NOT_ALLOW K;
     refreshGestureMask := 0 |}.

(** The arrays have their declared dimensions and hold bytes. *)
Record wf_state (K : Headers) (s : State) : Prop := {
  wf_mask_length : length (gesture_mask s) = GESTURE_MASK_SIZE K;
  wf_mask_bytes : Forall is_u8 (gesture_mask s);
  wf_x_length : length (gesture_coordinates_x s) = GESTURE_MAX_COORDS_PAIRS_REPORT K;
  wf_y_length : length (gesture_coordinates_y s) = GESTURE_MAX_COORDS_PAIRS_REPORT K
}.

(** ** The two loops over the stored mask

    [for (i = 0; i < size; i++) gesture_mask[i] = gesture_mask[i] | mask[i];]
    runs [Z.to_nat size] times (no time for a negative [size]).  [n] counts
    the iterations left and [i] is the loop index.  A pointer to [u8] is a
    list; the callers pass at least [size] bytes, and [elem] reads 0 past
    the end of a shorter list where C reads out of bounds.  The stores stay
    inside [gesture_mask] because [size <= GESTURE_MASK_SIZE] is checked
    before each loop. *)

(** [a[i]] for reading. *)
Definition elem (a : list Z) (i : nat) : Z := default 0 (a !! i).

Fixpoint or_loop (n i : nat) (mask gm : list Z) : list Z :=
  match n with
  | O => gm
  | S n' =>
      or_loop n' (S i) mask (<[i := u8 (Z.lor (elem gm i) (elem mask i))]> gm)
  end.

(** [temp = gesture_mask[i] ^ mask[i]; gesture_mask[i] = temp & gesture_mask[i];] *)
Fixpoint clear_loop (n i : nat) (mask gm : list Z) : list Z :=
  match n with
  | O => gm
  | S n' =>
      let temp := u8 (Z.lxor (elem gm i) (elem mask i)) in
      clear_loop n' (S i) mask (<[i := u8 (Z.land temp (elem gm i))]> gm)
  end.

(** ** The primitives outside this file

    The interrupt switches, [setFeatures], [setScanMode] and the frame-buffer
    read belong to other files.  A [Call] records one call of a primitive
    with its arguments; a [World] gives what each primitive returns during
    one call of a driver function.  The frame-buffer read returns its result
    code and the content it leaves in the buffer [val]. *)

Inductive Call : Type :=
| fts_disableInterruptNoSync
| setFeatures (feat : Z) (settings : list Z) (size : Z)
| setScanMode (mode settings : Z)
| fts_enableInterrupt
| fts_writeReadU8UX (cmd addrSize address byteToRead hasDummyByte : Z).

Record World : Type := {
  disableInterruptNoSync_res : Z;
  setFeatures_res : Z -> list Z -> Z -> Z;
  setScanMode_res : Z -> Z -> Z;
  enableInterrupt_res : Z;
  writeReadU8UX_res : Z -> Z -> Z -> Z -> Z -> Z * list Z
}.

(** What a driver function returns, the state it leaves and the calls it
    made, in order. *)
Record Outcome : Type := {
  ret : Z;
  st : State;
  calls : list Call
}.

(** [sizeof(int)] on the targets of this driver. *)
Definition sizeof_int : nat := 4.

Section Driver.

Context (K : Headers).

(** ** updateGestureMask (lines 43-94)

    [mask = None] is the NULL pointer.  The inner test [mask != NULL] of the
    enable branch is always true there. *)
Definition updateGestureMask (mask : option (list Z)) (size en : Z) (s : State)
  : Z * State :=
  match mask with
  | Some m =>
      if size <=? Z.of_nat (GESTURE_MASK_SIZE K) then
        if en =? FEAT_ENABLE K then
          let gm := or_loop (Z.to_nat size) 0 m (gesture_mask s) in
          (OK K, set_refreshGestureMask (set_gesture_mask s gm) 1)
        else if en =? FEAT_DISABLE K then
          let gm := clear_loop (Z.to_nat size) 0 m (gesture_mask s) in
          (OK K, set_refreshGestureMask (set_gesture_mask s gm) 1)
        else (ERROR_OP_NOT_ALLOW K, s)
      else (ERROR_OP_NOT_ALLOW K, s)
  | None => (ERROR_OP_NOT_ALLOW K, s)
  end.

(** ** enableGesture (lines 102-136) *)
Definition enableGesture (w : World) (mask : option (list Z)) (size : Z)
    (s : State) : Outcome :=
  if size <=? Z.of_nat (GESTURE_MASK_SIZE K) then
    let gm :=
      match mask with
      | Some m => or_loop (Z.to_nat size) 0 m (gesture_mask s)
      | None => gesture_mask s
      end in
    let s1 := set_gesture_mask s gm in
    let len := Z.of_nat (GESTURE_MASK_SIZE K) in
    let res := setFeatures_res w (FEAT_SEL_GESTURE K) gm len in
    let tr := [setFeatures (FEAT_SEL_GESTURE K) gm len] in
    if res <? OK K then {| ret := res; st := s1; calls := tr |}
    else {| ret := OK K; st := s1; calls := tr |}
  else {| ret := ERROR_OP_NOT_ALLOW K; st := s; calls := [] |}.

(** ** disableGesture (lines 144-185)

    With a NULL [mask] the payload is read from the local [int i = 0]
    as bytes: [GESTURE_MASK_SIZE] bytes of an object of [sizeof(int)] zero
    bytes.  Bytes past that object are not modelled. *)
Definition disableGesture (w : World) (mask : option (list Z)) (size : Z)
    (s : State) : Outcome :=
  if size <=? Z.of_nat (GESTURE_MASK_SIZE K) then
    let '(s1, pointer) :=
      match mask with
      | Some m =>
          let gm := clear_loop (Z.to_nat size) 0 m (gesture_mask s) in
          (set_gesture_mask s gm, gm)
      | None => (s, take (GESTURE_MASK_SIZE K) (replicate sizeof_int 0))
      end in
    let len := Z.of_nat (GESTURE_MASK_SIZE K) in
    let res := setFeatures_res w (FEAT_SEL_GESTURE K) pointer len in
    let tr := [setFeatures (FEAT_SEL_GESTURE K) pointer len] in
    if res <? OK K then {| ret := res; st := s1; calls := tr |}
    else {| ret := OK K; st := s1; calls := tr |}
  else {| ret := ERROR_OP_NOT_ALLOW K; st := s; calls := [] |}.

(** ** enterGestureMode (lines 192-232)

    [gesture_mode_END] is the code at the label [END]: it takes the value
    of [res], the state and the calls made on the way there. *)
Definition gesture_mode_END (w : World) (res : Z) (s : State)
    (tr : list Call) : Outcome :=
  let ret' := enableInterrupt_res w in
  let res' :=
    if ret' <? OK K then Z.lor res (Z.lor ret' (ERROR_ENABLE_INTER K))
    else res in
  {| ret := res'; st := s; calls := tr ++ [fts_enableInterrupt] |}.

(** Lines 215-222, then [END]. *)
Definition gesture_mode_scan (w : World) (s : State) (tr : list Call)
  : Outcome :=
  let res := setScanMode_res w (SCAN_MODE_LOW_POWER K) 0 in
  let tr' := tr ++ [setScanMode (SCAN_MODE_LOW_POWER K) 0] in
  if res <? OK K then gesture_mode_END w res s tr'
  else gesture_mode_END w (OK K) s tr'.

Definition enterGestureMode (w : World) (reload : Z) (s : State) : Outcome :=
  let res := disableInterruptNoSync_res w in
  if res <? OK K then
    {| ret := Z.lor res (ERROR_DISABLE_INTER K); st := s;
       calls := [fts_disableInterruptNoSync] |}
  else
    let tr := [fts_disableInterruptNoSync] in
    if (reload =? 1) || (refreshGestureMask s =? 1) then
      let o := enableGesture w None 0 s in
      if ret o <? OK K then gesture_mode_END w (ret o) (st o) (tr ++ calls o)
      else
        gesture_mode_scan w (set_refreshGestureMask (st o) 0) (tr ++ calls o)
    else gesture_mode_scan w s tr.

(** ** readGestureCoords (lines 261-312) *)

(** [(((u16) hi) & 0x0F) << 8 | (((u16) lo) & 0xFF)], stored in a [u16]. *)
Definition coord12 (hi lo : Z) : Z :=
  u16 (Z.lor (Z.shiftl (Z.land (u16 hi) 0x0F) 8) (Z.land (u16 lo) 0xFF)).

(** The loop of lines 291-301: [n] iterations are left, [i] is the index,
    [c] is [gesture_coords_reported] and [val] the buffer that was read. *)
Fixpoint coords_loop (n i c : nat) (val xs ys : list Z) : list Z * list Z :=
  match n with
  | O => (xs, ys)
  | S n' =>
      let x := coord12 (elem val (i * 2 + 1)%nat) (elem val (i * 2)%nat) in
      let y := coord12 (elem val (c * 2 + i * 2 + 1)%nat)
                       (elem val (c * 2 + i * 2)%nat) in
      coords_loop n' (S i) c val (<[i := x]> xs) (<[i := y]> ys)
  end.

(** [event] is the event buffer of the firmware; a byte past the end of a
    short list reads as 0. *)

(** Line 270: [address = (event[4] << 8) | event[3]], a [u64]. *)
Definition report_address (event : list Z) : Z :=
  u64 (Z.lor (Z.shiftl (elem event 4%nat) 8) (elem event 3%nat)).

(** Lines 271-278: the count of [event[5]], lowered to the capacity. *)
Definition report_count (event : list Z) : Z :=
  let reported := elem event 5%nat in
  if reported >? Z.of_nat (GESTURE_MAX_COORDS_PAIRS_REPORT K)
  then Z.of_nat (GESTURE_MAX_COORDS_PAIRS_REPORT K)
  else reported.

(** Line 283: the call of the frame-buffer read and what it returns. *)
Definition frame_read_call (event : list Z) : Call :=
  fts_writeReadU8UX (FTS_CMD_FRAMEBUFFER_R K) (BITS_16 K)
    (report_address event) (report_count event * 2 * 2) (DUMMY_FRAMEBUFFER K).

Definition frame_read (w : World) (event : list Z) : Z * list Z :=
  writeReadU8UX_res w (FTS_CMD_FRAMEBUFFER_R K) (BITS_16 K)
    (report_address event) (report_count event * 2 * 2) (DUMMY_FRAMEBUFFER K).

Definition readGestureCoords (w : World) (event : list Z) (s : State)
  : Outcome :=
  if (elem event 0%nat =? EVT_ID_USER_REPORT K)
     && (elem event 1%nat =? EVT_TYPE_USER_GESTURE K) then
    let reported := report_count event in
    let '(res, val) := frame_read w event in
    let tr := [frame_read_call event] in
    if res <? OK K then
      {| ret := res;
         st := set_gesture_coords_reported s (ERROR_OP_NOT_ALLOW K);
         calls := tr |}
    else
      let '(xs, ys) :=
        coords_loop (Z.to_nat reported) 0 (Z.to_nat reported) val
          (gesture_coordinates_x s) (gesture_coordinates_y s) in
      {| ret := OK K;
         st := set_gesture_coordinates
                 (set_gesture_coords_reported s reported) xs ys;
         calls := tr |}
  else {| ret := ERROR_OP_NOT_ALLOW K; st := s; calls := [] |}.

(** ** getGestureCoords (lines 320-327): the two arrays and the count. *)
Definition getGestureCoords (s : State) : list Z * list Z * Z :=
  (gesture_coordinates_x s, gesture_coordinates_y s, gesture_coords_reported s).

End Driver.

(** ** isAnyGestureActive (lines 238-254)

    The loop of line 242,
    [while (res < (GESTURE_MASK_SIZE - 1) && gesture_mask[res] == 0) res++;]
    [n] is the number of indices still below [GESTURE_MASK_SIZE - 1], so the
    first test of the condition fails exactly when [n] is 0. *)
Fixpoint active_scan (n res : nat) (gm : list Z) : nat :=
  match n with
  | O => res
  | S n' => if elem gm res =? 0 then active_scan n' (S res) gm else res
  end.

Definition isAnyGestureActive (K : Headers) (s : State) : Z :=
  let res := active_scan (GESTURE_MASK_SIZE K - 1) 0 (gesture_mask s) in
  if negb (elem (gesture_mask s) res =? 0) then FEAT_ENABLE K
  else FEAT_DISABLE K.

(** ** Sequences of gesture reports

    [read_all] decodes the reports of [reqs] one after the other; each one
    comes with the world its frame-buffer read runs in. *)
Definition read_all (K : Headers) (reqs : list (World * list Z)) (s : State)
  : State :=
  fold_left (fun s r => st (readGestureCoords K (fst r) (snd r) s)) reqs s.

(** The stored count is the sentinel or a count within the capacity. *)
Definition coords_count_ok (K : Headers) (s : State) : Prop :=
  gesture_coords_reported s = ERROR_OP_NOT_ALLOW K
  \/ 0 <= gesture_coords_reported s
        <= Z.of_nat (GESTURE_MAX_COORDS_PAIRS_REPORT K).

(** Whether [enterGestureMode] pushes the mask (line 203). *)
Definition mode_entry_pushes (reload : Z) (s : State) : bool :=
  (reload =? 1) || (refreshGestureMask s =? 1).


(** ** Counting the calls of a primitive *)

Definition is_setFeatures (c : Call) : bool :=
  match c with setFeatures _ _ _ => true | _ => false end.

Definition is_setScanMode (c : Call) : bool :=
  match c with setScanMode _ _ => true | _ => false end.

Definition is_enableInterrupt (c : Call) : bool :=
  match c with fts_enableInterrupt => true | _ => false end.

Fixpoint count_calls (p : Call -> bool) (tr : list Call) : nat :=
  match tr with
  | [] => O
  | c :: tr' => ((if p c then 1 else 0) + count_calls p tr')%nat
  end.

(** ** The driver next to the firmware

    To speak of what the firmware has seen, the driver state is paired with
    the mask the firmware holds: the payload of the last [setFeatures] call
    that did not fail (every [setFeatures] call of this file selects the
    gesture feature).  At load time the firmware holds the all-zero mask. *)

Record System : Type := {
  driver : State;
  firmware : list Z
}.

Definition deliver (K : Headers) (w : World) (fw : list Z) (c : Call) : list Z :=
  match c with
  | setFeatures feat settings size =>
      if setFeatures_res w feat settings size <? OK K then fw else settings
  | _ => fw
  end.

Definition firmware_after (K : Headers) (w : World) (tr : list Call)
    (fw : list Z) : list Z :=
  fold_left (deliver K w) tr fw.

Inductive Op : Type :=
| op_updateGestureMask (mask : option (list Z)) (size en : Z)
| op_enableGesture (w : World) (mask : option (list Z)) (size : Z)
| op_disableGesture (w : World) (mask : option (list Z)) (size : Z)
| op_enterGestureMode (w : World) (reload : Z).

Definition after_outcome (K : Headers) (w : World) (o : Outcome)
    (y : System) : System :=
  {| driver := st o; firmware := firmware_after K w (calls o) (firmware y) |}.

Definition run_op (K : Headers) (y : System) (op : Op) : System :=
  match op with
  | op_updateGestureMask mask size en =>
      {| driver := snd (updateGestureMask K mask size en (driver y));
         firmware := firmware y |}
  | op_enableGesture w mask size =>
      after_outcome K w (enableGesture K w mask size (driver y)) y
  | op_disableGesture w mask size =>
      after_outcome K w (disableGesture K w mask size (driver y)) y
  | op_enterGestureMode w reload =>
      after_outcome K w (enterGestureMode K w reload (driver y)) y
  end.

Definition run (K : Headers) (ops : list Op) (y : System) : System :=
  fold_left (run_op K) ops y.

Definition initial_system (K : Headers) : System :=
  {| driver := initial_state K; firmware := replicate (GESTURE_MASK_SIZE K) 0 |}.

(** The stored mask differs from the mask the firmware holds. *)
Definition unseen_changes (y : System) : Prop :=
  gesture_mask (driver y) <> firmware y.

(** The invariant of the data model, as it is worded there. *)
Definition refresh_invariant (y : System) : Prop :=
  refreshGestureMask (driver y) = 1 <-> unseen_changes y.

(** Either the flag is clear and the firmware holds the stored mask, or the
    flag is set. *)
Definition flag_covers_changes (y : System) : Prop :=
  (refreshGestureMask (driver y) = 0 /\ gesture_mask (driver y) = firmware y)
  \/ refreshGestureMask (driver y) = 1.

(** Some [setFeatures] call of [tr] failed in the world [w]. *)
Definition push_failed (K : Headers) (w : World) (tr : list Call) : bool :=
  List.existsb
    (fun c => match c with
              | setFeatures feat settings size =>
                  setFeatures_res w feat settings size <? OK K
              | _ => false
              end) tr.

(** Some [setFeatures] call of [tr] went through in the world [w]. *)
Definition push_delivered (K : Headers) (w : World) (tr : list Call) : bool :=
  List.existsb
    (fun c => match c with
              | setFeatures feat settings size =>
                  negb (setFeatures_res w feat settings size <? OK K)
              | _ => false
              end) tr.

(** The operations that leave the firmware in step with the flag, in the
    state [y] they start from: every mask update without push, every mode
    entry, every [enableGesture] with a NULL mask, an [enableGesture] or
    [disableGesture] with a delta when no push of it fails, and a
    [disableGesture] with a NULL mask when no push of it goes through. *)
Definition keeps_in_step (K : Headers) (y : System) (op : Op) : Prop :=
  match op with
  | op_updateGestureMask _ _ _ | op_enterGestureMode _ _ => True
  | op_enableGesture w mask size =>
      mask = None
      \/ push_failed K w (calls (enableGesture K w mask size (driver y)))
         = false
  | op_disableGesture w mask size =>
      match mask with
      | Some _ =>
          push_failed K w (calls (disableGesture K w mask size (driver y)))
          = false
      | None =>
          push_delivered K w (calls (disableGesture K w mask size (driver y)))
          = false
      end
  end.

(** [keeps_in_step] for each operation of a sequence, in the state it
    starts from. *)
Fixpoint in_step_run (K : Headers) (ops : list Op) (y : System) : Prop :=
  match ops with
  | [] => True
  | op :: ops' => keeps_in_step K y op /\ in_step_run K ops' (run_op K y op)
  end.

(** ** Sample constants and worlds, to run the model on concrete inputs *)

Definition sample_headers : Headers :=
  {| OK := 0;
     ERROR_OP_NOT_ALLOW := 0x8000000F - 2 ^ 32;
     ERROR_DISABLE_INTER := 0x80000200 - 2 ^ 32;
     ERROR_ENABLE_INTER := 0x80000300 - 2 ^ 32;
     GESTURE_MASK_SIZE := 4;
     GESTURE_MAX_COORDS_PAIRS_REPORT := 100;
     FEAT_ENABLE := 1;
     FEAT_DISABLE := 0;
     FEAT_SEL_GESTURE := 0x03;
     SCAN_MODE_LOW_POWER := 0x03;
     EVT_ID_USER_REPORT := 0x53;
     EVT_TYPE_USER_GESTURE := 0x03;
     FTS_CMD_FRAMEBUFFER_R := 0xA6;
     BITS_16 := 2;
     DUMMY_FRAMEBUFFER := 1 |}.

(** Every primitive succeeds; the frame-buffer read leaves [buf]. *)
Definition calm_world (buf : list Z) : World :=
  {| disableInterruptNoSync_res := 0;
     setFeatures_res := fun _ _ _ => 0;
     setScanMode_res := fun _ _ => 0;
     enableInterrupt_res := 0;
     writeReadU8UX_res := fun _ _ _ _ _ => (0, buf) |}.

(** A bus error code of the sample constants. *)
Definition sample_bus_error : Z := 0x80000002 - 2 ^ 32.

Definition world_disable_fails : World :=
  {| disableInterruptNoSync_res := sample_bus_error;
     setFeatures_res := fun _ _ _ => 0;
     setScanMode_res := fun _ _ => 0;
     enableInterrupt_res := 0;
     writeReadU8UX_res := fun _ _ _ _ _ => (0, []) |}.

Definition world_push_fails : World :=
  {| disableInterruptNoSync_res := 0;
     setFeatures_res := fun _ _ _ => sample_bus_error;
     setScanMode_res := fun _ _ => 0;
     enableInterrupt_res := 0;
     writeReadU8UX_res := fun _ _ _ _ _ => (0, []) |}.

Definition world_read_fails : World :=
  {| disableInterruptNoSync_res := 0;
     setFeatures_res := fun _ _ _ => 0;
     setScanMode_res := fun _ _ => 0;
     enableInterrupt_res := 0;
     writeReadU8UX_res := fun _ _ _ _ _ => (sample_bus_error, []) |}.

(** A stored mask with gestures enabled in its two low bytes. *)
Definition sample_state : State :=
  set_gesture_mask (initial_state sample_headers) [0x21; 0x80; 0; 0].

(** * Properties *)

(** ** Bytes and bit operations *)

(** Equality of two integers bit by bit; [i] is the position of the bit. *)
Ltac bitwise i Hi :=
  apply Z.bits_inj'; intros i Hi;
  repeat first
    [ rewrite Z.land_spec | rewrite Z.lor_spec | rewrite Z.lxor_spec
    | rewrite Z.lnot_spec by lia | rewrite Z.testbit_ones_nonneg by lia ].

Lemma u8_land (z : Z) : u8 z = Z.land z (Z.ones 8).
Proof. unfold u8. now rewrite Z.land_ones by lia. Qed.

Lemma u8_small (z : Z) : is_u8 z -> u8 z = z.
Proof. unfold is_u8, u8. intros H. apply Z.mod_small. lia. Qed.

Lemma is_u8_u8 (z : Z) : is_u8 (u8 z).
Proof.
  unfold is_u8, u8. pose proof (Z.mod_pos_bound z (2 ^ 8)). lia.
Qed.

(** ** Error paths of updateGestureMask *)

(** C10: when [updateGestureMask] fails (NULL mask, size above
    [GESTURE_MASK_SIZE], or a selector that is neither [FEAT_ENABLE] nor
    [FEAT_DISABLE]) it returns the error [ERROR_OP_NOT_ALLOW] and leaves the
    whole state, so the stored mask and the refresh flag, unchanged. *)
Theorem updateGestureMask_failure_keeps_state (K : Headers)
    (mask : option (list Z)) (size en : Z) (s : State) :
  mask = None \/ size > Z.of_nat (GESTURE_MASK_SIZE K)
    \/ (en <> FEAT_ENABLE K /\ en <> FEAT_DISABLE K) ->
  updateGestureMask K mask size en s = (ERROR_OP_NOT_ALLOW K, s).
Proof.
  intros H. unfold updateGestureMask.
  destruct mask as [m|]; [|reflexivity].
  destruct (Z.leb_spec size (Z.of_nat (GESTURE_MASK_SIZE K))); [|reflexivity].
  destruct (Z.eqb_spec en (FEAT_ENABLE K)) as [->|Hen].
  - destruct H as [H|[H|[H _]]]; [discriminate | lia | congruence].
  - destruct (Z.eqb_spec en (FEAT_DISABLE K)) as [->|Hdis]; [|reflexivity].
    destruct H as [H|[H|[_ H]]]; [discriminate | lia | congruence].
Qed.

Lemma updateGestureMask_failure_keeps_state_witness :
  (None = (None : option (list Z))
   \/ 1 > Z.of_nat (GESTURE_MASK_SIZE sample_headers)
   \/ (1 <> FEAT_ENABLE sample_headers /\ 1 <> FEAT_DISABLE sample_headers))
  /\ updateGestureMask sample_headers None 1 1 sample_state
     = (ERROR_OP_NOT_ALLOW sample_headers, sample_state).
Proof.
  split; [left; reflexivity|].
  apply (updateGestureMask_failure_keeps_state sample_headers None 1 1).
  left; reflexivity.
Defined.

(** ** Mode entry when the interrupt cannot be disabled *)

(** C8: when [fts_disableInterruptNoSync] fails, [enterGestureMode] returns
    at once the error or-ed with [ERROR_DISABLE_INTER]; the only call made
    is the failed one: no mask push, no scan-mode request and no interrupt
    re-enable, and the state is untouched. *)
Theorem enterGestureMode_disable_failure (K : Headers) (w : World)
    (reload : Z) (s : State) :
  disableInterruptNoSync_res w < OK K ->
  let o := enterGestureMode K w reload s in
  ret o = Z.lor (disableInterruptNoSync_res w) (ERROR_DISABLE_INTER K)
  /\ calls o = [fts_disableInterruptNoSync]
  /\ count_calls is_setFeatures (calls o) = 0%nat
  /\ count_calls is_setScanMode (calls o) = 0%nat
  /\ count_calls is_enableInterrupt (calls o) = 0%nat
  /\ st o = s.
Proof.
  intros H. unfold enterGestureMode.
  destruct (Z.ltb_spec (disableInterruptNoSync_res w) (OK K)); [|lia].
  cbn. repeat split; reflexivity.
Qed.

Lemma enterGestureMode_disable_failure_witness :
  disableInterruptNoSync_res world_disable_fails < OK sample_headers
  /\ ret (enterGestureMode sample_headers world_disable_fails 1 sample_state)
     = 0x80000202 - 2 ^ 32
  /\ calls (enterGestureMode sample_headers world_disable_fails 1 sample_state)
     = [fts_disableInterruptNoSync].
Proof.
  assert (H : disableInterruptNoSync_res world_disable_fails
              < OK sample_headers) by (vm_compute; reflexivity).
  split; [exact H|].
  pose proof (enterGestureMode_disable_failure sample_headers
                world_disable_fails 1 sample_state H) as (Hret & Hcalls & _).
  split; [rewrite Hret; reflexivity | exact Hcalls].
Defined.

(** ** The push of an all-off payload *)

(** C9: [disableGesture] with a NULL mask leaves the stored mask (indeed the
    whole state) unchanged, and a following [enableGesture] with a NULL mask
    sends the firmware exactly the mask stored before the disable call. *)
Theorem disableGesture_null_keeps_mask (K : Headers) (w1 w2 : World)
    (s : State) :
  let o1 := disableGesture K w1 None 0 s in
  gesture_mask (st o1) = gesture_mask s
  /\ st o1 = s
  /\ calls (enableGesture K w2 None 0 (st o1))
     = [setFeatures (FEAT_SEL_GESTURE K) (gesture_mask s)
          (Z.of_nat (GESTURE_MASK_SIZE K))].
Proof.
  assert (Hst : st (disableGesture K w1 None 0 s) = s).
  { unfold disableGesture.
    destruct (Z.leb_spec 0 (Z.of_nat (GESTURE_MASK_SIZE K))); [|lia].
    cbn. destruct (_ <? _); reflexivity. }
  cbn zeta. rewrite Hst. repeat split.
  unfold enableGesture.
  destruct (Z.leb_spec 0 (Z.of_nat (GESTURE_MASK_SIZE K))); [|lia].
  cbn. destruct (_ <? _); reflexivity.
Qed.

(** ** Decoding a gesture report: the error paths *)

(** C6: an event whose byte 0 is not [EVT_ID_USER_REPORT] or whose byte 1 is
    not [EVT_TYPE_USER_GESTURE] is rejected with [ERROR_OP_NOT_ALLOW]; no
    frame-buffer read is made and the state, so the coordinate arrays and
    the stored count, is unchanged. *)
Theorem readGestureCoords_rejects_header (K : Headers) (w : World)
    (event : list Z) (s : State) :
  elem event 0%nat <> EVT_ID_USER_REPORT K
    \/ elem event 1%nat <> EVT_TYPE_USER_GESTURE K ->
  readGestureCoords K w event s
  = {| ret := ERROR_OP_NOT_ALLOW K; st := s; calls := [] |}.
Proof.
  intros H. unfold readGestureCoords.
  destruct (Z.eqb_spec (elem event 0%nat) (EVT_ID_USER_REPORT K)) as [E0|E0];
    [|reflexivity].
  destruct (Z.eqb_spec (elem event 1%nat) (EVT_TYPE_USER_GESTURE K)) as [E1|E1];
    [|reflexivity].
  destruct H; contradiction.
Qed.

Lemma readGestureCoords_rejects_header_witness :
  elem [0x53; 0x02; 0; 0x10; 0x20; 1] 1%nat
    <> EVT_TYPE_USER_GESTURE sample_headers
  /\ readGestureCoords sample_headers (calm_world [1; 2; 3; 4])
       [0x53; 0x02; 0; 0x10; 0x20; 1] sample_state
     = {| ret := ERROR_OP_NOT_ALLOW sample_headers; st := sample_state;
          calls := [] |}.
Proof.
  assert (H : elem [0x53; 0x02; 0; 0x10; 0x20; 1] 1%nat
              <> EVT_TYPE_USER_GESTURE sample_headers)
    by (vm_compute; discriminate).
  split; [exact H|].
  apply readGestureCoords_rejects_header. right. exact H.
Defined.

(** C7: when the frame-buffer read of [readGestureCoords] fails, the stored
    count becomes the sentinel [ERROR_OP_NOT_ALLOW] and the error code of
    the read is returned unchanged; [getGestureCoords] then returns that
    sentinel as its count. *)
Theorem readGestureCoords_read_failure (K : Headers) (w : World)
    (event : list Z) (s : State) :
  elem event 0%nat = EVT_ID_USER_REPORT K ->
  elem event 1%nat = EVT_TYPE_USER_GESTURE K ->
  fst (frame_read K w event) < OK K ->
  let o := readGestureCoords K w event s in
  ret o = fst (frame_read K w event)
  /\ calls o = [frame_read_call K event]
  /\ gesture_coords_reported (st o) = ERROR_OP_NOT_ALLOW K
  /\ snd (getGestureCoords (st o)) = ERROR_OP_NOT_ALLOW K.
Proof.
  intros E0 E1 Hres. unfold readGestureCoords.
  rewrite E0, E1, !Z.eqb_refl. cbn [andb].
  destruct (frame_read K w event) as [res val]. cbn [fst] in *.
  destruct (Z.ltb_spec res (OK K)); [|lia].
  cbn. repeat split; reflexivity.
Qed.

Lemma readGestureCoords_read_failure_witness :
  let event : list Z := [0x53; 0x03; 0; 0x10; 0x20; 2] in
  let o := readGestureCoords sample_headers world_read_fails event
             sample_state in
  fst (frame_read sample_headers world_read_fails event) < OK sample_headers
  /\ ret o = sample_bus_error
  /\ snd (getGestureCoords (st o)) = ERROR_OP_NOT_ALLOW sample_headers.
Proof.
  intros event o.
  assert (H : fst (frame_read sample_headers world_read_fails event)
              < OK sample_headers) by (vm_compute; reflexivity).
  split; [exact H|].
  pose proof (readGestureCoords_read_failure sample_headers world_read_fails
                event sample_state eq_refl eq_refl H) as (Hret & _ & _ & Hget).
  split; [exact Hret | exact Hget].
Defined.

(** ** Mode entry with reload *)

Lemma count_calls_app (p : Call -> bool) (tr1 tr2 : list Call) :
  count_calls p (tr1 ++ tr2)
  = (count_calls p tr1 + count_calls p tr2)%nat.
Proof.
  induction tr1 as [|c tr1 IH]; cbn; [reflexivity|]. rewrite IH. lia.
Qed.

Lemma gesture_mode_END_calls (K : Headers) (w : World) (res : Z) (s : State)
    (tr : list Call) :
  calls (gesture_mode_END K w res s tr) = tr ++ [fts_enableInterrupt].
Proof. reflexivity. Qed.

Lemma gesture_mode_scan_calls (K : Headers) (w : World) (s : State)
    (tr : list Call) :
  calls (gesture_mode_scan K w s tr)
  = tr ++ [setScanMode (SCAN_MODE_LOW_POWER K) 0; fts_enableInterrupt].
Proof.
  unfold gesture_mode_scan. destruct (_ <? _);
    rewrite gesture_mode_END_calls, <- app_assoc; reflexivity.
Qed.

Lemma enableGesture_null_calls (K : Headers) (w : World) (s : State) :
  let o := enableGesture K w None 0 s in
  calls o = [setFeatures (FEAT_SEL_GESTURE K) (gesture_mask s)
               (Z.of_nat (GESTURE_MASK_SIZE K))]
  /\ ret o = (let res := setFeatures_res w (FEAT_SEL_GESTURE K)
                           (gesture_mask s) (Z.of_nat (GESTURE_MASK_SIZE K)) in
              if res <? OK K then res else OK K)
  /\ gesture_mask (st o) = gesture_mask s
  /\ refreshGestureMask (st o) = refreshGestureMask s.
Proof.
  unfold enableGesture.
  destruct (Z.leb_spec 0 (Z.of_nat (GESTURE_MASK_SIZE K))); [|lia].
  cbn. destruct (_ <? _); repeat split; reflexivity.
Qed.

(** C1, as the code has it: when the interrupt disable succeeds,
    [enterGestureMode] with [reload = 1] makes exactly one mask push and
    exactly one interrupt re-enable call, whatever fails in between.  The
    scan-mode request is made exactly once when the push succeeds and not
    at all when the push fails: the failed push jumps to [END]. *)
Theorem enterGestureMode_reload_calls (K : Headers) (w : World) (s : State) :
  OK K <= disableInterruptNoSync_res w ->
  let o := enterGestureMode K w 1 s in
  let push := setFeatures_res w (FEAT_SEL_GESTURE K) (gesture_mask s)
                (Z.of_nat (GESTURE_MASK_SIZE K)) in
  count_calls is_setFeatures (calls o) = 1%nat
  /\ count_calls is_enableInterrupt (calls o) = 1%nat
  /\ count_calls is_setScanMode (calls o)
     = (if push <? OK K then 0%nat else 1%nat).
Proof.
  intros Hdis. unfold enterGestureMode.
  destruct (Z.ltb_spec (disableInterruptNoSync_res w) (OK K)); [lia|].
  cbn [Z.eqb Pos.eqb orb].
  destruct (enableGesture_null_calls K w s) as (Hcalls & Hret & _).
  cbn zeta in *.
  set (push := setFeatures_res w _ _ _) in *.
  rewrite Hret, Hcalls.
  destruct (Z.ltb_spec push (OK K)) as [Hpush|Hpush].
  - destruct (Z.ltb_spec push (OK K)); [|lia].
    rewrite gesture_mode_END_calls. cbn. repeat split; reflexivity.
  - rewrite Z.ltb_irrefl, gesture_mode_scan_calls. cbn.
    repeat split; reflexivity.
Qed.

Lemma enterGestureMode_reload_calls_witness :
  let o := enterGestureMode sample_headers (calm_world []) 1 sample_state in
  OK sample_headers <= disableInterruptNoSync_res (calm_world [])
  /\ count_calls is_setFeatures (calls o) = 1%nat
  /\ count_calls is_enableInterrupt (calls o) = 1%nat
  /\ count_calls is_setScanMode (calls o) = 1%nat.
Proof.
  intros o.
  assert (H : OK sample_headers <= disableInterruptNoSync_res (calm_world []))
    by (vm_compute; discriminate).
  split; [exact H|].
  exact (enterGestureMode_reload_calls sample_headers (calm_world [])
           sample_state H).
Defined.

(** C1, as it is worded, fails: with a push that fails after a successful
    interrupt disable, no scan-mode request is made. *)
Lemma enterGestureMode_push_failure_skips_scan :
  let o := enterGestureMode sample_headers world_push_fails 1 sample_state in
  ~ (OK sample_headers <= disableInterruptNoSync_res world_push_fails ->
     count_calls is_setFeatures (calls o) = 1%nat
     /\ count_calls is_setScanMode (calls o) = 1%nat
     /\ count_calls is_enableInterrupt (calls o) = 1%nat).
Proof.
  intros o H.
  assert (Hdis : OK sample_headers
                 <= disableInterruptNoSync_res world_push_fails)
    by (vm_compute; discriminate).
  destruct (H Hdis) as (_ & Hscan & _).
  vm_compute in Hscan. discriminate.
Qed.

(** ** Decoding a gesture report: the frame-buffer read *)

Lemma small_testbit_high (n x i : Z) :
  0 <= x < 2 ^ n -> n <= i -> Z.testbit x i = false.
Proof.
  intros Hx Hi. destruct (Z.lt_ge_cases n 0) as [Hn|Hn].
  - rewrite Z.pow_neg_r in Hx by lia. lia.
  - rewrite <- (Z.mod_small x (2 ^ n)) by lia.
    apply Z.mod_pow2_bits_high. lia.
Qed.

Lemma mod_pow2_id (n x : Z) :
  0 <= n -> (forall i, n <= i -> Z.testbit x i = false) -> x mod 2 ^ n = x.
Proof.
  intros Hn H. apply Z.bits_inj'. intros i Hi.
  destruct (Z.lt_ge_cases i n).
  - apply Z.mod_pow2_bits_low. lia.
  - rewrite Z.mod_pow2_bits_high by lia. symmetry. apply H. lia.
Qed.

Lemma report_address_bytes (event : list Z) :
  is_u8 (elem event 3%nat) -> is_u8 (elem event 4%nat) ->
  report_address event
  = Z.lor (Z.shiftl (elem event 4%nat) 8) (elem event 3%nat).
Proof.
  unfold is_u8, report_address, u64. intros H3 H4.
  apply mod_pow2_id; [lia|]. intros i Hi.
  rewrite Z.lor_spec, Z.shiftl_spec by lia.
  rewrite (small_testbit_high 8 (elem event 4%nat) (i - 8)) by lia.
  rewrite (small_testbit_high 8 (elem event 3%nat) i) by lia.
  reflexivity.
Qed.

(** C5: on a report with a valid header, [readGestureCoords] makes one
    frame-buffer read, at the offset [(event[4] << 8) | event[3]]; it asks
    for [GESTURE_MAX_COORDS_PAIRS_REPORT * 4] bytes when [event[5]] is above
    the capacity and for [event[5] * 4] bytes otherwise.  Lowering the count
    is no error: when the read succeeds the function returns [OK] and the
    stored count is the lowered one. *)
Theorem readGestureCoords_clamps_count (K : Headers) (w : World)
    (event : list Z) (s : State) :
  elem event 0%nat = EVT_ID_USER_REPORT K ->
  elem event 1%nat = EVT_TYPE_USER_GESTURE K ->
  is_u8 (elem event 3%nat) -> is_u8 (elem event 4%nat) ->
  let o := readGestureCoords K w event s in
  let n := elem event 5%nat in
  let MAX := Z.of_nat (GESTURE_MAX_COORDS_PAIRS_REPORT K) in
  calls o
  = [fts_writeReadU8UX (FTS_CMD_FRAMEBUFFER_R K) (BITS_16 K)
       (Z.lor (Z.shiftl (elem event 4%nat) 8) (elem event 3%nat))
       (if n >? MAX then MAX * 4 else n * 4) (DUMMY_FRAMEBUFFER K)]
  /\ (OK K <= fst (frame_read K w event) ->
      ret o = OK K
      /\ gesture_coords_reported (st o) = (if n >? MAX then MAX else n)).
Proof.
  intros E0 E1 H3 H4. cbn zeta. unfold readGestureCoords.
  rewrite E0, E1, !Z.eqb_refl. cbn [andb].
  assert (Hcall : frame_read_call K event
    = fts_writeReadU8UX (FTS_CMD_FRAMEBUFFER_R K) (BITS_16 K)
        (Z.lor (Z.shiftl (elem event 4%nat) 8) (elem event 3%nat))
        (if elem event 5%nat >? Z.of_nat (GESTURE_MAX_COORDS_PAIRS_REPORT K)
         then Z.of_nat (GESTURE_MAX_COORDS_PAIRS_REPORT K) * 4
         else elem event 5%nat * 4) (DUMMY_FRAMEBUFFER K)).
  { unfold frame_read_call. rewrite report_address_bytes by assumption.
    unfold report_count. f_equal. destruct (_ >? _); lia. }
  destruct (frame_read K w event) as [res val]. cbn [fst].
  destruct (Z.ltb_spec res (OK K)).
  - cbn. split; [now rewrite Hcall | lia].
  - destruct (coords_loop _ _ _ _ _ _) as [xs ys]. cbn.
    split; [now rewrite Hcall | intros _; split; reflexivity].
Qed.

Lemma readGestureCoords_clamps_count_witness :
  let event : list Z := [0x53; 0x03; 0; 0x10; 0x20; 105] in
  let o := readGestureCoords sample_headers (calm_world []) event
             sample_state in
  is_u8 (elem event 3%nat) /\ is_u8 (elem event 4%nat)
  /\ calls o = [fts_writeReadU8UX 0xA6 2 0x2010 400 1]
  /\ ret o = 0
  /\ gesture_coords_reported (st o) = 100.
Proof.
  intros event o.
  assert (H3 : is_u8 (elem event 3%nat)) by (unfold is_u8; cbn; lia).
  assert (H4 : is_u8 (elem event 4%nat)) by (unfold is_u8; cbn; lia).
  split; [exact H3|]. split; [exact H4|].
  pose proof (readGestureCoords_clamps_count sample_headers (calm_world [])
                event sample_state eq_refl eq_refl H3 H4) as [Hcalls Hok].
  split; [exact Hcalls|].
  apply Hok. vm_compute. discriminate.
Defined.

(** ** Decoding a gesture report: the coordinates *)

Lemma elem_insert_eq (a : list Z) (i : nat) (v : Z) :
  (i < length a)%nat -> elem (<[i := v]> a) i = v.
Proof.
  intros H. unfold elem. now rewrite list_lookup_insert_eq.
Qed.

Lemma elem_insert_ne (a : list Z) (i j : nat) (v : Z) :
  i <> j -> elem (<[i := v]> a) j = elem a j.
Proof.
  intros H. unfold elem. now rewrite list_lookup_insert_ne.
Qed.

Lemma is_u8_elem (a : list Z) (i : nat) : Forall is_u8 a -> is_u8 (elem a i).
Proof.
  intros H. unfold elem. destruct (a !! i) as [v|] eqn:E; cbn.
  - exact (proj1 (Forall_lookup _ _) H i v E).
  - unfold is_u8. lia.
Qed.

Lemma coord12_bytes (hi lo : Z) :
  is_u8 hi -> is_u8 lo ->
  coord12 hi lo = Z.lor (Z.shiftl (Z.land hi 0x0F) 8) lo.
Proof.
  unfold is_u8, coord12. intros Hhi Hlo.
  assert (Ehi : u16 hi = hi) by (apply Z.mod_small; lia).
  assert (Elo : Z.land (u16 lo) 255 = lo).
  { change 255 with (Z.ones 8). rewrite Z.land_ones by lia.
    unfold u16. rewrite (Z.mod_small lo (2 ^ 16)) by lia.
    apply Z.mod_small. lia. }
  rewrite Ehi, Elo. apply mod_pow2_id; [lia|]. intros i Hi.
  rewrite Z.lor_spec, Z.shiftl_spec, Z.land_spec by lia.
  rewrite (small_testbit_high 8 hi (i - 8)) by lia.
  rewrite (small_testbit_high 8 lo i) by lia.
  reflexivity.
Qed.

Lemma coords_loop_x (c : nat) (val : list Z) (n : nat) :
  forall (i : nat) (xs ys : list Z) (j : nat),
    (i + n <= length xs)%nat ->
    elem (fst (coords_loop n i c val xs ys)) j
    = if decide (i <= j < i + n)%nat
      then coord12 (elem val (j * 2 + 1)%nat) (elem val (j * 2)%nat)
      else elem xs j.
Proof.
  induction n as [|n IH]; intros i xs ys j Hlen; cbn [coords_loop fst].
  - case_decide; [lia | reflexivity].
  - rewrite IH by (rewrite length_insert; lia).
    destruct (decide (j = i)) as [->|Hne].
    + rewrite elem_insert_eq by lia. repeat case_decide; try lia; reflexivity.
    + rewrite elem_insert_ne by congruence.
      repeat case_decide; try lia; reflexivity.
Qed.

Lemma coords_loop_y (c : nat) (val : list Z) (n : nat) :
  forall (i : nat) (xs ys : list Z) (j : nat),
    (i + n <= length ys)%nat ->
    elem (snd (coords_loop n i c val xs ys)) j
    = if decide (i <= j < i + n)%nat
      then coord12 (elem val (c * 2 + j * 2 + 1)%nat)
                   (elem val (c * 2 + j * 2)%nat)
      else elem ys j.
Proof.
  induction n as [|n IH]; intros i xs ys j Hlen; cbn [coords_loop snd].
  - case_decide; [lia | reflexivity].
  - rewrite IH by (rewrite length_insert; lia).
    destruct (decide (j = i)) as [->|Hne].
    + rewrite elem_insert_eq by lia. repeat case_decide; try lia; reflexivity.
    + rewrite elem_insert_ne by congruence.
      repeat case_decide; try lia; reflexivity.
Qed.

Lemma report_count_le (K : Headers) (event : list Z) :
  report_count K event <= Z.of_nat (GESTURE_MAX_COORDS_PAIRS_REPORT K).
Proof.
  unfold report_count.
  destruct (Z.gtb_spec (elem event 5%nat)
              (Z.of_nat (GESTURE_MAX_COORDS_PAIRS_REPORT K))); lia.
Qed.

Lemma report_count_min (K : Headers) (event : list Z) :
  report_count K event
  = Z.min (elem event 5%nat) (Z.of_nat (GESTURE_MAX_COORDS_PAIRS_REPORT K)).
Proof.
  unfold report_count.
  destruct (Z.gtb_spec (elem event 5%nat)
              (Z.of_nat (GESTURE_MAX_COORDS_PAIRS_REPORT K))); lia.
Qed.

(** C4: take a report with a valid header whose frame-buffer read succeeds
    and leaves the bytes [buf], and let [c] be the count byte [event[5]]
    lowered to [GESTURE_MAX_COORDS_PAIRS_REPORT].  Then [readGestureCoords]
    returns [OK], stores [c] as the count, and for every [i < c] stores
    [x[i] = ((buf[2i+1] & 0x0F) << 8) | buf[2i]] and
    [y[i] = ((buf[2c+2i+1] & 0x0F) << 8) | buf[2c+2i]]. *)
Theorem readGestureCoords_decodes (K : Headers) (w : World) (event : list Z)
    (s : State) (i : nat) :
  wf_state K s ->
  elem event 0%nat = EVT_ID_USER_REPORT K ->
  elem event 1%nat = EVT_TYPE_USER_GESTURE K ->
  OK K <= fst (frame_read K w event) ->
  let buf := snd (frame_read K w event) in
  Forall is_u8 buf ->
  let c := Z.to_nat (Z.min (elem event 5%nat)
                       (Z.of_nat (GESTURE_MAX_COORDS_PAIRS_REPORT K))) in
  let o := readGestureCoords K w event s in
  (i < c)%nat ->
  ret o = OK K
  /\ gesture_coords_reported (st o) = Z.of_nat c
  /\ snd (getGestureCoords (st o)) = Z.of_nat c
  /\ (c <= GESTURE_MAX_COORDS_PAIRS_REPORT K)%nat
  /\ elem (gesture_coordinates_x (st o)) i
     = Z.lor (Z.shiftl (Z.land (elem buf (2 * i + 1)%nat) 0x0F) 8)
         (elem buf (2 * i)%nat)
  /\ elem (gesture_coordinates_y (st o)) i
     = Z.lor (Z.shiftl (Z.land (elem buf (2 * c + 2 * i + 1)%nat) 0x0F) 8)
         (elem buf (2 * c + 2 * i)%nat).
Proof.
  intros Hwf E0 E1 Hres buf Hbuf. cbn zeta. unfold readGestureCoords.
  rewrite E0, E1, !Z.eqb_refl. cbn [andb].
  subst buf. destruct (frame_read K w event) as [res val]. cbn [fst snd] in *.
  destruct (Z.ltb_spec res (OK K)); [lia|].
  rewrite report_count_min.
  set (m := Z.min (elem event 5%nat)
              (Z.of_nat (GESTURE_MAX_COORDS_PAIRS_REPORT K))).
  assert (Hle : m <= Z.of_nat (GESTURE_MAX_COORDS_PAIRS_REPORT K))
    by (subst m; lia).
  set (c := Z.to_nat m) in *.
  pose proof (coords_loop_x c val c 0 (gesture_coordinates_x s)
                (gesture_coordinates_y s) i) as Hx.
  pose proof (coords_loop_y c val c 0 (gesture_coordinates_x s)
                (gesture_coordinates_y s) i) as Hy.
  destruct (coords_loop c 0 c val _ _) as [xs ys]. cbn [fst snd] in *.
  cbn. intros Hi.
  destruct Hwf as [_ _ Hlx Hly].
  rewrite Hx, Hy by lia.
  repeat case_decide; try lia.
  rewrite !coord12_bytes by (apply is_u8_elem; assumption).
  replace (i * 2 + 1)%nat with (2 * i + 1)%nat by lia.
  replace (i * 2)%nat with (2 * i)%nat by lia.
  replace (c * 2 + 2 * i + 1)%nat with (2 * c + 2 * i + 1)%nat by lia.
  replace (c * 2 + 2 * i)%nat with (2 * c + 2 * i)%nat by lia.
  repeat split; try reflexivity; lia.
Qed.

(** The report of the specification: one pair, [x = 0x0ABC], [y = 0x0DEF],
    in the bytes [0xBC; 0x0A; 0xEF; 0x0D]; and a report of two pairs, read
    at its second pair. *)
Lemma readGestureCoords_decodes_witness :
  let K := sample_headers in
  let event1 : list Z := [0x53; 0x03; 0; 0x10; 0x20; 1] in
  let w1 := calm_world [0xBC; 0x0A; 0xEF; 0x0D] in
  let o1 := readGestureCoords K w1 event1 (initial_state K) in
  let event2 : list Z := [0x53; 0x03; 0; 0x10; 0x20; 2] in
  let w2 := calm_world [0x11; 0x01; 0x22; 0xF2; 0x33; 0x03; 0x44; 0x04] in
  let o2 := readGestureCoords K w2 event2 (initial_state K) in
  wf_state K (initial_state K)
  /\ Forall is_u8 (snd (frame_read K w1 event1))
  /\ Forall is_u8 (snd (frame_read K w2 event2))
  /\ (gesture_coords_reported (st o1) = 1
      /\ elem (gesture_coordinates_x (st o1)) 0 = 0x0ABC
      /\ elem (gesture_coordinates_y (st o1)) 0 = 0x0DEF)
  /\ (gesture_coords_reported (st o2) = 2
      /\ elem (gesture_coordinates_x (st o2)) 1 = 0x0222
      /\ elem (gesture_coordinates_y (st o2)) 1 = 0x0444).
Proof.
  intros K event1 w1 o1 event2 w2 o2.
  assert (Hwf : wf_state K (initial_state K)).
  { split; cbn; try reflexivity.
    repeat constructor; unfold is_u8; lia. }
  assert (Hbuf1 : Forall is_u8 (snd (frame_read K w1 event1))).
  { cbn. repeat constructor; unfold is_u8; lia. }
  assert (Hbuf2 : Forall is_u8 (snd (frame_read K w2 event2))).
  { cbn. repeat constructor; unfold is_u8; lia. }
  assert (Hres1 : OK K <= fst (frame_read K w1 event1))
    by (vm_compute; discriminate).
  assert (Hres2 : OK K <= fst (frame_read K w2 event2))
    by (vm_compute; discriminate).
  assert (Hi1 : (0 < Z.to_nat (Z.min (elem event1 5%nat)
                    (Z.of_nat (GESTURE_MAX_COORDS_PAIRS_REPORT K))))%nat)
    by (vm_compute; lia).
  assert (Hi2 : (1 < Z.to_nat (Z.min (elem event2 5%nat)
                    (Z.of_nat (GESTURE_MAX_COORDS_PAIRS_REPORT K))))%nat)
    by (vm_compute; lia).
  split; [exact Hwf|]. split; [exact Hbuf1|]. split; [exact Hbuf2|].
  pose proof (readGestureCoords_decodes K w1 event1 (initial_state K) 0
                Hwf eq_refl eq_refl Hres1 Hbuf1 Hi1)
    as (_ & Hc1 & _ & _ & Hx1 & Hy1).
  pose proof (readGestureCoords_decodes K w2 event2 (initial_state K) 1
                Hwf eq_refl eq_refl Hres2 Hbuf2 Hi2)
    as (_ & Hc2 & _ & _ & Hx2 & Hy2).
  split; [split; [exact Hc1 | split; [exact Hx1 | exact Hy1]]|].
  split; [exact Hc2 | split; [exact Hx2 | exact Hy2]].
Defined.

(** ** Merging and clearing bits of the stored mask *)

Lemma or_loop_length (mask : list Z) (n : nat) :
  forall (i : nat) (gm : list Z), length (or_loop n i mask gm) = length gm.
Proof.
  induction n as [|n IH]; intros i gm; cbn; [reflexivity|].
  now rewrite IH, length_insert.
Qed.

Lemma clear_loop_length (mask : list Z) (n : nat) :
  forall (i : nat) (gm : list Z), length (clear_loop n i mask gm) = length gm.
Proof.
  induction n as [|n IH]; intros i gm; cbn; [reflexivity|].
  now rewrite IH, length_insert.
Qed.

Lemma or_loop_elem (mask : list Z) (n : nat) :
  forall (i : nat) (gm : list Z) (j : nat),
    (i + n <= length gm)%nat ->
    elem (or_loop n i mask gm) j
    = if decide (i <= j < i + n)%nat
      then u8 (Z.lor (elem gm j) (elem mask j))
      else elem gm j.
Proof.
  induction n as [|n IH]; intros i gm j Hlen; cbn [or_loop].
  - case_decide; [lia | reflexivity].
  - rewrite IH by (rewrite length_insert; lia).
    destruct (decide (j = i)) as [->|Hne].
    + rewrite elem_insert_eq by lia. repeat case_decide; try lia; reflexivity.
    + rewrite elem_insert_ne by congruence.
      repeat case_decide; try lia; reflexivity.
Qed.

Lemma clear_loop_elem (mask : list Z) (n : nat) :
  forall (i : nat) (gm : list Z) (j : nat),
    (i + n <= length gm)%nat ->
    elem (clear_loop n i mask gm) j
    = if decide (i <= j < i + n)%nat
      then u8 (Z.land (u8 (Z.lxor (elem gm j) (elem mask j))) (elem gm j))
      else elem gm j.
Proof.
  induction n as [|n IH]; intros i gm j Hlen; cbn [clear_loop].
  - case_decide; [lia | reflexivity].
  - cbn zeta. rewrite IH by (rewrite length_insert; lia).
    destruct (decide (j = i)) as [->|Hne].
    + rewrite elem_insert_eq by lia. repeat case_decide; try lia; reflexivity.
    + rewrite elem_insert_ne by congruence.
      repeat case_decide; try lia; reflexivity.
Qed.

(** Set the bits of [d] in the byte [m], then clear them, both as the two
    loops do it: the bits of [d] are gone, whatever they were in [m]. *)
Lemma set_then_clear_byte (m d : Z) :
  let m1 := u8 (Z.lor m d) in
  u8 (Z.land (u8 (Z.lxor m1 d)) m1) = u8 (Z.land m (Z.lnot d)).
Proof.
  cbn zeta. rewrite !u8_land. bitwise i Hi.
  destruct (Z.testbit m i), (Z.testbit d i), (i <? 8); reflexivity.
Qed.

Lemma is_u8_land_lnot (m d : Z) : is_u8 m -> is_u8 (Z.land m (Z.lnot d)).
Proof.
  unfold is_u8. intros Hm.
  assert (H0 : 0 <= Z.land m (Z.lnot d)) by (apply Z.land_nonneg; lia).
  split; [exact H0|].
  rewrite <- (mod_pow2_id 8 (Z.land m (Z.lnot d))).
  - pose proof (Z.mod_pos_bound (Z.land m (Z.lnot d)) (2 ^ 8)). lia.
  - lia.
  - intros i Hi. rewrite Z.land_spec.
    rewrite (small_testbit_high 8 m i) by lia. reflexivity.
Qed.

(** C2, as the code has it: after [updateGestureMask] with [FEAT_ENABLE]
    and then with [FEAT_DISABLE] on the same delta [D] and size, both calls
    succeed and each of the low-order [size] bytes of the stored mask is its
    value before the merge with the bits of [D] cleared, [m & ~D[i]].  The
    byte is back to its value before the merge when it had no bit in common
    with [D[i]]. *)
Theorem merge_then_clear_low_bytes (K : Headers) (D : list Z) (size : Z)
    (s : State) (i : nat) :
  wf_state K s ->
  FEAT_ENABLE K <> FEAT_DISABLE K ->
  Forall is_u8 D ->
  0 <= size <= Z.of_nat (GESTURE_MASK_SIZE K) ->
  (Z.to_nat size <= length D)%nat ->
  (i < Z.to_nat size)%nat ->
  let r1 := updateGestureMask K (Some D) size (FEAT_ENABLE K) s in
  let r2 := updateGestureMask K (Some D) size (FEAT_DISABLE K) (snd r1) in
  let m := elem (gesture_mask s) i in
  fst r1 = OK K /\ fst r2 = OK K
  /\ elem (gesture_mask (snd r2)) i = Z.land m (Z.lnot (elem D i))
  /\ (Z.land m (elem D i) = 0 -> elem (gesture_mask (snd r2)) i = m).
Proof.
  intros [Hlen Hbytes _ _] Hne HD Hsize HlenD Hi. cbn zeta.
  unfold updateGestureMask.
  destruct (Z.leb_spec size (Z.of_nat (GESTURE_MASK_SIZE K))); [|lia].
  rewrite !Z.eqb_refl.
  destruct (Z.eqb_spec (FEAT_DISABLE K) (FEAT_ENABLE K)); [congruence|].
  cbn [fst snd gesture_mask set_gesture_mask set_refreshGestureMask].
  assert (Hval : elem (clear_loop (Z.to_nat size) 0 D
                         (or_loop (Z.to_nat size) 0 D (gesture_mask s))) i
                 = Z.land (elem (gesture_mask s) i) (Z.lnot (elem D i))).
  { rewrite clear_loop_elem by (rewrite or_loop_length; lia).
    rewrite or_loop_elem by lia.
    repeat case_decide; try lia.
    rewrite set_then_clear_byte. apply u8_small, is_u8_land_lnot.
    apply is_u8_elem, Hbytes. }
  repeat split; try reflexivity; [exact Hval|].
  intros Hdisj. rewrite Hval.
  rewrite <- Z.ldiff_land. apply Z.bits_inj'. intros b Hb.
  rewrite Z.ldiff_spec.
  assert (Hbit : Z.testbit (Z.land (elem (gesture_mask s) i) (elem D i)) b
                 = false) by (rewrite Hdisj; apply Z.bits_0).
  rewrite Z.land_spec in Hbit.
  destruct (Z.testbit (elem (gesture_mask s) i) b), (Z.testbit (elem D i) b);
    cbn in *; congruence.
Qed.

Lemma merge_then_clear_low_bytes_witness :
  let K := sample_headers in
  let D : list Z := [0x01; 0x0C] in
  let r1 := updateGestureMask K (Some D) 2 (FEAT_ENABLE K) sample_state in
  let r2 := updateGestureMask K (Some D) 2 (FEAT_DISABLE K) (snd r1) in
  wf_state K sample_state
  /\ FEAT_ENABLE K <> FEAT_DISABLE K
  /\ Forall is_u8 D
  /\ 0 <= 2 <= Z.of_nat (GESTURE_MASK_SIZE K)
  /\ elem (gesture_mask (snd r2)) 0 = 0x20
  /\ elem (gesture_mask (snd r2)) 1 = 0x80.
Proof.
  intros K D r1 r2.
  assert (Hwf : wf_state K sample_state).
  { split; cbn; try reflexivity. repeat constructor; unfold is_u8; lia. }
  assert (Hne : FEAT_ENABLE K <> FEAT_DISABLE K) by (cbn; discriminate).
  assert (HD : Forall is_u8 D) by (repeat constructor; unfold is_u8; lia).
  assert (Hsize : 0 <= 2 <= Z.of_nat (GESTURE_MASK_SIZE K)) by (cbn; lia).
  assert (HlenD : (Z.to_nat 2 <= length D)%nat) by (cbn; lia).
  repeat (split; [assumption|]).
  split.
  - assert (Hi : (0 < Z.to_nat 2)%nat) by (cbn; lia).
    exact (proj1 (proj2 (proj2 (merge_then_clear_low_bytes K D 2 sample_state
                                  0 Hwf Hne HD Hsize HlenD Hi)))).
  - assert (Hi : (1 < Z.to_nat 2)%nat) by (cbn; lia).
    apply (proj2 (proj2 (proj2 (merge_then_clear_low_bytes K D 2 sample_state
                                  1 Hwf Hne HD Hsize HlenD Hi)))).
    reflexivity.
Defined.

(** C2, as it is worded, fails: a bit of [D] that was set before the merge
    is cleared afterwards.  Here bit 0 of byte 0 of the stored mask. *)
Lemma merge_then_clear_loses_enabled_bit :
  let K := sample_headers in
  let D : list Z := [0x01] in
  let r1 := updateGestureMask K (Some D) 1 (FEAT_ENABLE K) sample_state in
  let r2 := updateGestureMask K (Some D) 1 (FEAT_DISABLE K) (snd r1) in
  0 <= 1 <= Z.of_nat (GESTURE_MASK_SIZE K)
  /\ take (Z.to_nat 1) (gesture_mask (snd r2))
     <> take (Z.to_nat 1) (gesture_mask sample_state).
Proof.
  cbn zeta. split; [cbn; lia|]. vm_compute. discriminate.
Qed.

(** ** The refresh flag and what the firmware holds *)

Lemma flag_covers_changes_initial (K : Headers) :
  flag_covers_changes (initial_system K).
Proof. left. split; reflexivity. Qed.

Lemma updateGestureMask_flag (K : Headers) (mask : option (list Z))
    (size en : Z) (s : State) :
  snd (updateGestureMask K mask size en s) = s
  \/ refreshGestureMask (snd (updateGestureMask K mask size en s)) = 1.
Proof.
  unfold updateGestureMask.
  destruct mask as [m|]; [|now left].
  destruct (_ <=? _); [|now left].
  destruct (_ =? _); [now right|].
  destruct (_ =? _); [now right | now left].
Qed.

(** Mode entry keeps the stored mask; either it leaves the flag and the
    firmware as they were, or it has pushed the stored mask and cleared the
    flag. *)
Lemma enterGestureMode_system (K : Headers) (w : World) (reload : Z)
    (y : System) :
  let y' := run_op K y (op_enterGestureMode w reload) in
  gesture_mask (driver y') = gesture_mask (driver y)
  /\ ((refreshGestureMask (driver y') = refreshGestureMask (driver y)
       /\ firmware y' = firmware y)
      \/ (refreshGestureMask (driver y') = 0
          /\ firmware y' = gesture_mask (driver y))).
Proof.
  destruct y as [s fw].
  cbn [run_op after_outcome driver firmware]. unfold enterGestureMode.
  destruct (_ <? _) eqn:Edis; [cbn; split; [reflexivity | now left]|].
  destruct (_ || _).
  - unfold enableGesture.
    destruct (Z.leb_spec 0 (Z.of_nat (GESTURE_MASK_SIZE K))); [|lia].
    cbn zeta.
    destruct (setFeatures_res w _ _ _ <? OK K) eqn:Epush;
      cbn [ret st calls]; rewrite ?Epush, ?Z.ltb_irrefl.
    + unfold gesture_mode_END, firmware_after.
      cbn [ret st calls app fold_left deliver gesture_mask set_gesture_mask
           refreshGestureMask].
      rewrite Epush. split; [reflexivity | now left].
    + unfold gesture_mode_scan, firmware_after.
      destruct (setScanMode_res w _ _ <? OK K);
        cbn [gesture_mode_END ret st calls app fold_left deliver gesture_mask
             set_gesture_mask set_refreshGestureMask refreshGestureMask];
        rewrite Epush; (split; [reflexivity | now right]).
  - unfold gesture_mode_scan, firmware_after.
    destruct (setScanMode_res w _ _ <? OK K); cbn;
      (split; [reflexivity | now left]).
Qed.

Lemma enableGesture_in_step (K : Headers) (w : World)
    (mask : option (list Z)) (size : Z) (y : System) :
  keeps_in_step K y (op_enableGesture w mask size) ->
  flag_covers_changes y ->
  flag_covers_changes (run_op K y (op_enableGesture w mask size)).
Proof.
  destruct y as [s fw]. unfold flag_covers_changes, keeps_in_step.
  cbn [run_op after_outcome driver firmware]. unfold enableGesture.
  destruct (size <=? Z.of_nat (GESTURE_MASK_SIZE K));
    [|intros _ H; exact H].
  cbn zeta.
  destruct (setFeatures_res w _ _ _ <? OK K) eqn:Epush;
    unfold firmware_after, push_failed;
    cbn [ret st calls fold_left deliver List.existsb gesture_mask
         set_gesture_mask refreshGestureMask];
    rewrite Epush; cbn [orb].
  - intros [->|Hf] H; [exact H | discriminate].
  - intros _ [[H0 _]|H1]; [left; split; [exact H0 | reflexivity] | now right].
Qed.

Lemma disableGesture_in_step (K : Headers) (w : World)
    (mask : option (list Z)) (size : Z) (y : System) :
  keeps_in_step K y (op_disableGesture w mask size) ->
  flag_covers_changes y ->
  flag_covers_changes (run_op K y (op_disableGesture w mask size)).
Proof.
  destruct y as [s fw]. unfold flag_covers_changes, keeps_in_step.
  cbn [run_op after_outcome driver firmware]. unfold disableGesture.
  destruct (size <=? Z.of_nat (GESTURE_MASK_SIZE K));
    [|destruct mask; intros _ H; exact H].
  destruct mask as [m|]; cbn zeta;
    destruct (setFeatures_res w _ _ _ <? OK K) eqn:Epush;
    unfold firmware_after, push_failed, push_delivered;
    cbn [ret st calls fold_left deliver List.existsb gesture_mask
         set_gesture_mask refreshGestureMask];
    rewrite Epush; cbn [orb negb].
  - intros Hf; discriminate.
  - intros _ [[H0 _]|H1]; [left; split; [exact H0 | reflexivity] | now right].
  - intros _ H; exact H.
  - intros Hf; discriminate.
Qed.

Lemma flag_covers_changes_step (K : Headers) (y : System) (op : Op) :
  keeps_in_step K y op -> flag_covers_changes y ->
  flag_covers_changes (run_op K y op).
Proof.
  intros Hop Hy.
  destruct op as [mask size en|w mask size|w mask size|w reload].
  - unfold flag_covers_changes. cbn [run_op driver firmware].
    destruct (updateGestureMask_flag K mask size en (driver y)) as [E|E].
    + rewrite E. exact Hy.
    + now right.
  - now apply enableGesture_in_step.
  - now apply disableGesture_in_step.
  - destruct (enterGestureMode_system K w reload y) as (Hm & [[Hf Hfw]|[Hf Hfw]]);
      unfold flag_covers_changes in *.
    + now rewrite Hm, Hf, Hfw.
    + left. now rewrite Hm, Hf, Hfw.
Qed.

Lemma flag_covers_changes_run (K : Headers) (ops : list Op) :
  forall y : System,
    in_step_run K ops y -> flag_covers_changes y ->
    flag_covers_changes (run K ops y).
Proof.
  induction ops as [|op ops IH]; intros y Hops Hy; [exact Hy|].
  destruct Hops as [Hop Hops]. cbn.
  apply IH; [exact Hops | now apply flag_covers_changes_step].
Qed.

(** C3, as the code has it, for calls that do not overlap: take any
    sequence of calls from the load-time state made of
    [updateGestureMask], [enterGestureMode], [enableGesture] with a NULL
    mask, [enableGesture] and [disableGesture] with a delta whose push does
    not fail, and [disableGesture] with a NULL mask whose push does not go
    through.  In the state reached, a stored mask that differs from the
    mask held by the firmware comes with a set refresh flag; so a clear
    flag means that the firmware holds the stored mask. *)
Theorem unseen_changes_set_refresh_flag (K : Headers) (ops : list Op) :
  in_step_run K ops (initial_system K) ->
  let y := run K ops (initial_system K) in
  (unseen_changes y -> refreshGestureMask (driver y) = 1)
  /\ (refreshGestureMask (driver y) = 0 -> gesture_mask (driver y) = firmware y).
Proof.
  intros Hops y.
  pose proof (flag_covers_changes_run K ops (initial_system K) Hops
                (flag_covers_changes_initial K)) as [[H0 Heq]|H1];
    fold y in H0 || fold y in H1; unfold unseen_changes.
  - split; [intros Hne; contradiction | intros _; exact Heq].
  - split; [intros _; exact H1 | intros H0; rewrite H1 in H0; discriminate].
Qed.

Lemma unseen_changes_set_refresh_flag_witness :
  let K := sample_headers in
  let ops := [op_updateGestureMask (Some [0x21; 0x80]) 2 (FEAT_ENABLE K);
              op_enableGesture world_push_fails None 0;
              op_enterGestureMode (calm_world []) 0;
              op_enableGesture (calm_world []) (Some [0x04]) 1;
              op_disableGesture (calm_world []) (Some [0x01]) 1;
              op_disableGesture world_push_fails None 0] in
  let y := run K ops (initial_system K) in
  in_step_run K ops (initial_system K)
  /\ refreshGestureMask (driver y) = 0
  /\ gesture_mask (driver y) = [0x24; 0x80; 0; 0]
  /\ gesture_mask (driver y) = firmware y.
Proof.
  intros K ops y.
  assert (Hops : in_step_run K ops (initial_system K)).
  { cbn [in_step_run ops keeps_in_step].
    repeat split;
      first [exact I | left; reflexivity | right; reflexivity | reflexivity]. }
  split; [exact Hops|].
  split; [reflexivity|]. split; [reflexivity|].
  apply (proj2 (unseen_changes_set_refresh_flag K ops Hops)). reflexivity.
Defined.

(** The push functions never touch the flag. *)
Lemma enableGesture_keeps_refresh_flag (K : Headers) (w : World)
    (mask : option (list Z)) (size : Z) (s : State) :
  refreshGestureMask (st (enableGesture K w mask size s))
  = refreshGestureMask s.
Proof.
  unfold enableGesture. destruct (_ <=? _); [|reflexivity].
  cbn zeta. destruct (_ <? _); reflexivity.
Qed.

Lemma disableGesture_keeps_refresh_flag (K : Headers) (w : World)
    (mask : option (list Z)) (size : Z) (s : State) :
  refreshGestureMask (st (disableGesture K w mask size s))
  = refreshGestureMask s.
Proof.
  unfold disableGesture. destruct (_ <=? _); [|reflexivity].
  destruct mask; cbn zeta; destruct (_ <? _); reflexivity.
Qed.

(** C3, as it is worded, fails in both directions.  An update that changes
    no bit of the mask still sets the flag: the flag is set although the
    firmware holds the stored mask ([y1]).  And the push functions change
    the stored mask or the mask of the firmware without touching the flag,
    so that the firmware has not seen the stored mask and the flag is
    clear: [enableGesture] with a delta whose push fails ([y2]),
    [disableGesture] with a NULL mask whose all-off push goes through
    ([y3]), and [disableGesture] with a delta whose push fails ([y4]). *)
Lemma refresh_invariant_fails :
  let K := sample_headers in
  let y1 := run K [op_updateGestureMask (Some [0]) 1 (FEAT_ENABLE K)]
              (initial_system K) in
  let y2 := run K [op_enableGesture world_push_fails (Some [0x04]) 1]
              (initial_system K) in
  let y3 := run K [op_enableGesture (calm_world []) (Some [0x04]) 1;
                   op_disableGesture (calm_world []) None 0]
              (initial_system K) in
  let y4 := run K [op_enableGesture (calm_world []) (Some [0x04]) 1;
                   op_disableGesture world_push_fails (Some [0x04]) 1]
              (initial_system K) in
  (refreshGestureMask (driver y1) = 1
   /\ gesture_mask (driver y1) = firmware y1
   /\ ~ refresh_invariant y1)
  /\ (refreshGestureMask (driver y2) = 0
      /\ unseen_changes y2
      /\ ~ refresh_invariant y2)
  /\ (refreshGestureMask (driver y3) = 0
      /\ unseen_changes y3
      /\ ~ refresh_invariant y3)
  /\ (refreshGestureMask (driver y4) = 0
      /\ unseen_changes y4
      /\ ~ refresh_invariant y4).
Proof.
  intros K y1 y2 y3 y4.
  assert (Hflag1 : refreshGestureMask (driver y1) = 1) by reflexivity.
  assert (Hsame1 : gesture_mask (driver y1) = firmware y1) by reflexivity.
  assert (Hclear : forall y : System,
             refreshGestureMask (driver y) = 0 -> unseen_changes y ->
             ~ refresh_invariant y).
  { intros y Hflag Hne [_ Hinv]. rewrite (Hinv Hne) in Hflag. discriminate. }
  assert (Hflag2 : refreshGestureMask (driver y2) = 0) by reflexivity.
  assert (Hne2 : unseen_changes y2)
    by (unfold unseen_changes; vm_compute; discriminate).
  assert (Hflag3 : refreshGestureMask (driver y3) = 0) by reflexivity.
  assert (Hne3 : unseen_changes y3)
    by (unfold unseen_changes; vm_compute; discriminate).
  assert (Hflag4 : refreshGestureMask (driver y4) = 0) by reflexivity.
  assert (Hne4 : unseen_changes y4)
    by (unfold unseen_changes; vm_compute; discriminate).
  split; [|split; [|split]].
  - split; [exact Hflag1|]. split; [exact Hsame1|].
    intros [Hinv _]. exact (Hinv Hflag1 Hsame1).
  - split; [exact Hflag2|]. split; [exact Hne2 | exact (Hclear y2 Hflag2 Hne2)].
  - split; [exact Hflag3|]. split; [exact Hne3 | exact (Hclear y3 Hflag3 Hne3)].
  - split; [exact Hflag4|]. split; [exact Hne4 | exact (Hclear y4 Hflag4 Hne4)].
Qed.

(** * Further properties of the code *)

(** ** Reading lists through [elem] *)

Lemma lookup_elem (a : list Z) (i : nat) :
  a !! i = if decide (i < length a)%nat then Some (elem a i) else None.
Proof.
  unfold elem. case_decide as Hi.
  - destruct (a !! i) eqn:E; [reflexivity|].
    apply lookup_ge_None in E. lia.
  - apply lookup_ge_None. lia.
Qed.

Lemma list_eq_elem (a b : list Z) :
  length a = length b ->
  (forall i : nat, (i < length a)%nat -> elem a i = elem b i) ->
  a = b.
Proof.
  intros Hlen H. apply list_eq. intros i. rewrite !lookup_elem, <- Hlen.
  case_decide; [|reflexivity]. now rewrite H.
Qed.

Lemma u8_testbit (z b : Z) :
  0 <= b -> Z.testbit (u8 z) b = Z.testbit z b && (b <? 8).
Proof.
  intros Hb. rewrite u8_land, Z.land_spec, Z.testbit_ones_nonneg by lia.
  reflexivity.
Qed.

Lemma is_u8_testbit (z b : Z) :
  is_u8 z -> Z.testbit z b = true -> b < 8.
Proof.
  unfold is_u8. intros Hz Hb. destruct (Z.lt_ge_cases b 8); [assumption|].
  rewrite (small_testbit_high 8 z b) in Hb by lia. discriminate.
Qed.

(** ** The scan for an enabled gesture *)

Lemma active_scan_spec (gm : list Z) (n : nat) :
  forall res : nat,
    let r := active_scan n res gm in
    (res <= r <= res + n)%nat
    /\ (forall j : nat, (res <= j < r)%nat -> elem gm j = 0)
    /\ ((r < res + n)%nat -> elem gm r <> 0).
Proof.
  induction n as [|n IH]; intros res; cbn [active_scan].
  - cbn zeta. repeat split; lia.
  - destruct (Z.eqb_spec (elem gm res) 0) as [E|E]; cbn zeta.
    + specialize (IH (S res)). cbn zeta in IH. destruct IH as (Hr & Hz & Hnz).
      split; [lia|]. split.
      * intros j Hj. destruct (decide (j = res)) as [->|]; [exact E|].
        apply Hz. lia.
      * intros Hlt. apply Hnz. lia.
    + repeat split; lia.
Qed.

Lemma isAnyGestureActive_enabled (K : Headers) (s : State) (i : nat) :
  (i < GESTURE_MASK_SIZE K)%nat -> elem (gesture_mask s) i <> 0 ->
  isAnyGestureActive K s = FEAT_ENABLE K.
Proof.
  intros Hi Hne. unfold isAnyGestureActive.
  pose proof (active_scan_spec (gesture_mask s) (GESTURE_MASK_SIZE K - 1) 0)
    as Hscan.
  cbn zeta in *.
  set (r := active_scan (GESTURE_MASK_SIZE K - 1) 0 (gesture_mask s)) in *.
  destruct Hscan as (Hr & Hz & Hnz).
  destruct (Z.eqb_spec (elem (gesture_mask s) r) 0) as [E|E]; [|reflexivity].
  exfalso. apply Hne.
  destruct (decide (i = r)) as [->|Hir]; [exact E|].
  apply Hz.
  destruct (decide (r < 0 + (GESTURE_MASK_SIZE K - 1))%nat) as [Hlt|Hge].
  - contradiction (Hnz Hlt).
  - lia.
Qed.

Lemma isAnyGestureActive_disabled (K : Headers) (s : State) :
  (0 < GESTURE_MASK_SIZE K)%nat ->
  (forall i : nat, (i < GESTURE_MASK_SIZE K)%nat ->
                   elem (gesture_mask s) i = 0) ->
  isAnyGestureActive K s = FEAT_DISABLE K.
Proof.
  intros Hpos Hall. unfold isAnyGestureActive.
  pose proof (active_scan_spec (gesture_mask s) (GESTURE_MASK_SIZE K - 1) 0)
    as (Hr & _ & _).
  rewrite Hall by lia. reflexivity.
Qed.

(** X1: [isAnyGestureActive] returns [FEAT_ENABLE] when some byte of the
    stored mask is not zero and [FEAT_DISABLE] when the [GESTURE_MASK_SIZE]
    bytes are all zero; the last byte is looked at too. *)
Theorem isAnyGestureActive_any_byte (K : Headers) (s : State) :
  (0 < GESTURE_MASK_SIZE K)%nat ->
  ((exists i : nat, (i < GESTURE_MASK_SIZE K)%nat
                    /\ elem (gesture_mask s) i <> 0) ->
   isAnyGestureActive K s = FEAT_ENABLE K)
  /\ ((forall i : nat, (i < GESTURE_MASK_SIZE K)%nat ->
                       elem (gesture_mask s) i = 0) ->
      isAnyGestureActive K s = FEAT_DISABLE K).
Proof.
  intros Hpos. split.
  - intros (i & Hi & Hne). exact (isAnyGestureActive_enabled K s i Hi Hne).
  - exact (isAnyGestureActive_disabled K s Hpos).
Qed.

Lemma isAnyGestureActive_any_byte_witness :
  (0 < GESTURE_MASK_SIZE sample_headers)%nat
  /\ isAnyGestureActive sample_headers
       (set_gesture_mask (initial_state sample_headers) [0; 0; 0; 0x40])
     = FEAT_ENABLE sample_headers
  /\ isAnyGestureActive sample_headers (initial_state sample_headers)
     = FEAT_DISABLE sample_headers.
Proof.
  assert (Hpos : (0 < GESTURE_MASK_SIZE sample_headers)%nat) by (cbn; lia).
  split; [exact Hpos|]. split.
  - apply (proj1 (isAnyGestureActive_any_byte sample_headers _ Hpos)).
    exists 3%nat. split; [cbn; lia | cbn; discriminate].
  - apply (proj2 (isAnyGestureActive_any_byte sample_headers _ Hpos)).
    intros i _. destruct i as [|[|[|[|i]]]]; reflexivity.
Defined.

(** ** The mask store *)

(** X2: a successful merge never clears a bit and touches only the
    low-order [size] bytes: [updateGestureMask] with [FEAT_ENABLE] returns
    [OK], sets the refresh flag, keeps every bit that was set, and leaves
    the bytes from index [size] on as they were. *)
Theorem updateGestureMask_enable_monotone (K : Headers) (D : list Z)
    (size : Z) (s : State) :
  wf_state K s ->
  size <= Z.of_nat (GESTURE_MASK_SIZE K) ->
  let r := updateGestureMask K (Some D) size (FEAT_ENABLE K) s in
  fst r = OK K
  /\ refreshGestureMask (snd r) = 1
  /\ length (gesture_mask (snd r)) = GESTURE_MASK_SIZE K
  /\ (forall (i : nat) (b : Z),
        Z.testbit (elem (gesture_mask s) i) b = true ->
        Z.testbit (elem (gesture_mask (snd r)) i) b = true)
  /\ (forall i : nat, (Z.to_nat size <= i)%nat ->
        elem (gesture_mask (snd r)) i = elem (gesture_mask s) i).
Proof.
  intros [Hlen Hbytes _ _] Hsize. cbn zeta. unfold updateGestureMask.
  destruct (Z.leb_spec size (Z.of_nat (GESTURE_MASK_SIZE K))); [|lia].
  rewrite Z.eqb_refl.
  cbn [fst snd gesture_mask refreshGestureMask set_gesture_mask
       set_refreshGestureMask].
  split; [reflexivity|]. split; [reflexivity|].
  split; [now rewrite or_loop_length|]. split.
  - intros i b Hb. rewrite or_loop_elem by lia.
    case_decide; [|exact Hb].
    assert (Hb0 : 0 <= b).
    { destruct (Z.lt_ge_cases b 0); [|assumption].
      rewrite Z.testbit_neg_r in Hb by assumption. discriminate. }
    pose proof (is_u8_testbit _ b (is_u8_elem _ i Hbytes) Hb) as Hb8.
    rewrite u8_testbit, Z.lor_spec, Hb by assumption.
    destruct (Z.ltb_spec b 8); [reflexivity | lia].
  - intros i Hi. rewrite or_loop_elem by lia.
    case_decide; [lia | reflexivity].
Qed.

Lemma updateGestureMask_enable_monotone_witness :
  let K := sample_headers in
  let r := updateGestureMask K (Some [0x02]) 1 (FEAT_ENABLE K) sample_state in
  wf_state K sample_state
  /\ 1 <= Z.of_nat (GESTURE_MASK_SIZE K)
  /\ fst r = OK K
  /\ Z.testbit (elem (gesture_mask (snd r)) 0) 5 = true
  /\ elem (gesture_mask (snd r)) 1 = 0x80.
Proof.
  intros K r.
  assert (Hwf : wf_state K sample_state).
  { split; cbn; try reflexivity. repeat constructor; unfold is_u8; lia. }
  assert (Hsize : 1 <= Z.of_nat (GESTURE_MASK_SIZE K)) by (cbn; lia).
  split; [exact Hwf|]. split; [exact Hsize|].
  pose proof (updateGestureMask_enable_monotone K [0x02] 1 sample_state
                Hwf Hsize) as (Hok & _ & _ & Hmono & Hrest).
  split; [exact Hok|]. split.
  - apply Hmono. reflexivity.
  - apply (Hrest 1%nat). cbn. lia.
Defined.

(** X3: a successful clear removes the bits of the delta and sets none:
    after [updateGestureMask] with [FEAT_DISABLE], each of the low-order
    [size] bytes has no bit in common with the delta byte, every bit that
    is set was set before, and the bytes from index [size] on are as they
    were. *)
Theorem updateGestureMask_disable_clears (K : Headers) (D : list Z)
    (size : Z) (s : State) :
  wf_state K s ->
  FEAT_ENABLE K <> FEAT_DISABLE K ->
  size <= Z.of_nat (GESTURE_MASK_SIZE K) ->
  let r := updateGestureMask K (Some D) size (FEAT_DISABLE K) s in
  fst r = OK K
  /\ refreshGestureMask (snd r) = 1
  /\ (forall i : nat, (i < Z.to_nat size)%nat ->
        Z.land (elem (gesture_mask (snd r)) i) (elem D i) = 0)
  /\ (forall (i : nat) (b : Z),
        Z.testbit (elem (gesture_mask (snd r)) i) b = true ->
        Z.testbit (elem (gesture_mask s) i) b = true)
  /\ (forall i : nat, (Z.to_nat size <= i)%nat ->
        elem (gesture_mask (snd r)) i = elem (gesture_mask s) i).
Proof.
  intros [Hlen Hbytes _ _] Hne Hsize. cbn zeta. unfold updateGestureMask.
  destruct (Z.leb_spec size (Z.of_nat (GESTURE_MASK_SIZE K))); [|lia].
  destruct (Z.eqb_spec (FEAT_DISABLE K) (FEAT_ENABLE K)); [congruence|].
  rewrite Z.eqb_refl.
  cbn [fst snd gesture_mask refreshGestureMask set_gesture_mask
       set_refreshGestureMask].
  split; [reflexivity|]. split; [reflexivity|]. split; [|split].
  - intros i Hi. rewrite clear_loop_elem by lia.
    case_decide; [|lia]. rewrite !u8_land. bitwise b Hb.
    rewrite Z.bits_0.
    destruct (Z.testbit (elem (gesture_mask s) i) b),
             (Z.testbit (elem D i) b), (b <? 8); reflexivity.
  - intros i b Hb. rewrite clear_loop_elem in Hb by lia.
    case_decide; [|exact Hb].
    assert (Hb0 : 0 <= b).
    { destruct (Z.lt_ge_cases b 0); [|assumption].
      rewrite Z.testbit_neg_r in Hb by assumption. discriminate. }
    rewrite u8_testbit, Z.land_spec in Hb by assumption.
    destruct (Z.testbit (elem (gesture_mask s) i) b); [reflexivity|].
    rewrite !andb_false_r in Hb. discriminate.
  - intros i Hi. rewrite clear_loop_elem by lia.
    case_decide; [lia | reflexivity].
Qed.

Lemma updateGestureMask_disable_clears_witness :
  let K := sample_headers in
  let r := updateGestureMask K (Some [0x01]) 1 (FEAT_DISABLE K) sample_state in
  wf_state K sample_state
  /\ FEAT_ENABLE K <> FEAT_DISABLE K
  /\ 1 <= Z.of_nat (GESTURE_MASK_SIZE K)
  /\ gesture_mask (snd r) = [0x20; 0x80; 0; 0]
  /\ Z.land (elem (gesture_mask (snd r)) 0) (elem [0x01] 0) = 0.
Proof.
  intros K r.
  assert (Hwf : wf_state K sample_state).
  { split; cbn; try reflexivity. repeat constructor; unfold is_u8; lia. }
  assert (Hne : FEAT_ENABLE K <> FEAT_DISABLE K) by (cbn; discriminate).
  assert (Hsize : 1 <= Z.of_nat (GESTURE_MASK_SIZE K)) by (cbn; lia).
  repeat (split; [assumption|]). split; [reflexivity|].
  pose proof (updateGestureMask_disable_clears K [0x01] 1 sample_state
                Hwf Hne Hsize) as (_ & _ & Hclr & _).
  apply (Hclr 0%nat). cbn. lia.
Defined.

(** X4: a size of zero or below is accepted: with a non-NULL mask and a
    valid selector [updateGestureMask] returns [OK], leaves the stored mask
    as it was and still sets the refresh flag. *)
Theorem updateGestureMask_nonpositive_size (K : Headers) (D : list Z)
    (size en : Z) (s : State) :
  size <= 0 ->
  en = FEAT_ENABLE K \/ en = FEAT_DISABLE K ->
  let r := updateGestureMask K (Some D) size en s in
  fst r = OK K
  /\ gesture_mask (snd r) = gesture_mask s
  /\ refreshGestureMask (snd r) = 1.
Proof.
  intros Hsize Hen. cbn zeta. unfold updateGestureMask.
  destruct (Z.leb_spec size (Z.of_nat (GESTURE_MASK_SIZE K))); [|lia].
  replace (Z.to_nat size) with 0%nat by lia.
  destruct (Z.eqb_spec en (FEAT_ENABLE K)); [repeat split; reflexivity|].
  destruct (Z.eqb_spec en (FEAT_DISABLE K)); [repeat split; reflexivity|].
  destruct Hen; contradiction.
Qed.

Lemma updateGestureMask_nonpositive_size_witness :
  let K := sample_headers in
  let r := updateGestureMask K (Some []) (-3) (FEAT_DISABLE K) sample_state in
  -3 <= 0
  /\ fst r = OK K
  /\ gesture_mask (snd r) = [0x21; 0x80; 0; 0]
  /\ refreshGestureMask (snd r) = 1.
Proof.
  intros K r.
  assert (Hsize : -3 <= 0) by lia.
  split; [exact Hsize|].
  exact (updateGestureMask_nonpositive_size K [] (-3) (FEAT_DISABLE K)
           sample_state Hsize (or_intror eq_refl)).
Defined.

Lemma or_loop_twice (mask : list Z) (n : nat) (gm : list Z) :
  (n <= length gm)%nat ->
  or_loop n 0 mask (or_loop n 0 mask gm) = or_loop n 0 mask gm.
Proof.
  intros Hn. apply list_eq_elem; [now rewrite !or_loop_length|].
  intros i _. rewrite or_loop_elem by (rewrite or_loop_length; lia).
  case_decide; [|reflexivity].
  rewrite or_loop_elem by lia. case_decide; [|lia].
  rewrite !u8_land. bitwise b Hb.
  destruct (Z.testbit (elem gm i) b), (Z.testbit (elem mask i) b), (b <? 8);
    reflexivity.
Qed.

Lemma clear_loop_twice (mask : list Z) (n : nat) (gm : list Z) :
  (n <= length gm)%nat ->
  clear_loop n 0 mask (clear_loop n 0 mask gm) = clear_loop n 0 mask gm.
Proof.
  intros Hn. apply list_eq_elem; [now rewrite !clear_loop_length|].
  intros i _. rewrite clear_loop_elem by (rewrite clear_loop_length; lia).
  case_decide; [|reflexivity].
  rewrite clear_loop_elem by lia. case_decide; [|lia].
  rewrite !u8_land. bitwise b Hb.
  destruct (Z.testbit (elem gm i) b), (Z.testbit (elem mask i) b), (b <? 8);
    reflexivity.
Qed.

(** X5: [updateGestureMask] is idempotent: a second call with the same
    arguments returns the same code and leaves the state of the first call,
    on the enable path, on the disable path and on the error paths. *)
Theorem updateGestureMask_idempotent (K : Headers) (mask : option (list Z))
    (size en : Z) (s : State) :
  wf_state K s ->
  updateGestureMask K mask size en (snd (updateGestureMask K mask size en s))
  = updateGestureMask K mask size en s.
Proof.
  intros [Hlen _ _ _]. unfold updateGestureMask.
  destruct mask as [m|]; [|reflexivity].
  destruct (Z.leb_spec size (Z.of_nat (GESTURE_MASK_SIZE K))); [|reflexivity].
  destruct (Z.eqb_spec en (FEAT_ENABLE K)).
  - cbn [snd gesture_mask set_gesture_mask set_refreshGestureMask].
    rewrite or_loop_twice by lia. reflexivity.
  - destruct (Z.eqb_spec en (FEAT_DISABLE K)); [|reflexivity].
    cbn [snd gesture_mask set_gesture_mask set_refreshGestureMask].
    rewrite clear_loop_twice by lia. reflexivity.
Qed.

Lemma updateGestureMask_idempotent_witness :
  let K := sample_headers in
  let r := updateGestureMask K (Some [0x03; 0x81]) 2 (FEAT_DISABLE K)
             sample_state in
  wf_state K sample_state
  /\ gesture_mask (snd r) = [0x20; 0; 0; 0]
  /\ updateGestureMask K (Some [0x03; 0x81]) 2 (FEAT_DISABLE K) (snd r) = r.
Proof.
  intros K r.
  assert (Hwf : wf_state K sample_state).
  { split; cbn; try reflexivity. repeat constructor; unfold is_u8; lia. }
  split; [exact Hwf|]. split; [reflexivity|].
  exact (updateGestureMask_idempotent K (Some [0x03; 0x81]) 2 (FEAT_DISABLE K)
           sample_state Hwf).
Defined.

(** ** The push functions *)

(** X6: a size above [GESTURE_MASK_SIZE] is refused by both push functions,
    with or without a mask: they return [ERROR_OP_NOT_ALLOW], make no call
    and leave the state untouched. *)
Theorem push_size_too_large (K : Headers) (w : World)
    (mask : option (list Z)) (size : Z) (s : State) :
  Z.of_nat (GESTURE_MASK_SIZE K) < size ->
  enableGesture K w mask size s
  = {| ret := ERROR_OP_NOT_ALLOW K; st := s; calls := [] |}
  /\ disableGesture K w mask size s
     = {| ret := ERROR_OP_NOT_ALLOW K; st := s; calls := [] |}.
Proof.
  intros Hsize. unfold enableGesture, disableGesture.
  destruct (Z.leb_spec size (Z.of_nat (GESTURE_MASK_SIZE K))); [lia|].
  split; reflexivity.
Qed.

Lemma push_size_too_large_witness :
  Z.of_nat (GESTURE_MASK_SIZE sample_headers) < 5
  /\ enableGesture sample_headers (calm_world []) None 5 sample_state
     = {| ret := ERROR_OP_NOT_ALLOW sample_headers; st := sample_state;
          calls := [] |}.
Proof.
  assert (H : Z.of_nat (GESTURE_MASK_SIZE sample_headers) < 5) by (cbn; lia).
  split; [exact H|].
  exact (proj1 (push_size_too_large sample_headers (calm_world []) None 5
                  sample_state H)).
Defined.

(** X7: [enableGesture] with a delta stores the mask that
    [updateGestureMask] with [FEAT_ENABLE] stores, and sends the whole
    stored mask in its one [setFeatures] call.  The merge is kept when the
    push fails; the code of the failed push is returned, [OK] otherwise.
    The refresh flag is not touched. *)
Theorem enableGesture_sends_merged_mask (K : Headers) (w : World)
    (D : list Z) (size : Z) (s : State) :
  size <= Z.of_nat (GESTURE_MASK_SIZE K) ->
  let o := enableGesture K w (Some D) size s in
  let gm := gesture_mask
              (snd (updateGestureMask K (Some D) size (FEAT_ENABLE K) s)) in
  let push := setFeatures_res w (FEAT_SEL_GESTURE K) gm
                (Z.of_nat (GESTURE_MASK_SIZE K)) in
  gesture_mask (st o) = gm
  /\ calls o = [setFeatures (FEAT_SEL_GESTURE K) gm
                  (Z.of_nat (GESTURE_MASK_SIZE K))]
  /\ ret o = (if push <? OK K then push else OK K)
  /\ refreshGestureMask (st o) = refreshGestureMask s.
Proof.
  intros Hsize. cbn zeta. unfold enableGesture, updateGestureMask.
  destruct (Z.leb_spec size (Z.of_nat (GESTURE_MASK_SIZE K))); [|lia].
  rewrite Z.eqb_refl.
  cbn [snd gesture_mask set_gesture_mask set_refreshGestureMask].
  destruct (setFeatures_res w _ _ _ <? OK K); repeat split; reflexivity.
Qed.

Lemma enableGesture_sends_merged_mask_witness :
  let K := sample_headers in
  let o := enableGesture K world_push_fails (Some [0x02]) 1 sample_state in
  1 <= Z.of_nat (GESTURE_MASK_SIZE K)
  /\ gesture_mask (st o) = [0x23; 0x80; 0; 0]
  /\ calls o = [setFeatures 0x03 [0x23; 0x80; 0; 0] 4]
  /\ ret o = sample_bus_error.
Proof.
  intros K o.
  assert (Hsize : 1 <= Z.of_nat (GESTURE_MASK_SIZE K)) by (cbn; lia).
  split; [exact Hsize|].
  pose proof (enableGesture_sends_merged_mask K world_push_fails [0x02] 1
                sample_state Hsize) as (Hm & Hc & Hr & _).
  split; [exact Hm|]. split; [exact Hc | exact Hr].
Defined.

(** X8: [disableGesture] with a delta stores the mask that
    [updateGestureMask] with [FEAT_DISABLE] stores and sends that whole
    mask; the clearing is kept when the push fails, and the refresh flag is
    not touched. *)
Theorem disableGesture_sends_cleared_mask (K : Headers) (w : World)
    (D : list Z) (size : Z) (s : State) :
  FEAT_ENABLE K <> FEAT_DISABLE K ->
  size <= Z.of_nat (GESTURE_MASK_SIZE K) ->
  let o := disableGesture K w (Some D) size s in
  let gm := gesture_mask
              (snd (updateGestureMask K (Some D) size (FEAT_DISABLE K) s)) in
  let push := setFeatures_res w (FEAT_SEL_GESTURE K) gm
                (Z.of_nat (GESTURE_MASK_SIZE K)) in
  gesture_mask (st o) = gm
  /\ calls o = [setFeatures (FEAT_SEL_GESTURE K) gm
                  (Z.of_nat (GESTURE_MASK_SIZE K))]
  /\ ret o = (if push <? OK K then push else OK K)
  /\ refreshGestureMask (st o) = refreshGestureMask s.
Proof.
  intros Hne Hsize. cbn zeta. unfold disableGesture, updateGestureMask.
  destruct (Z.leb_spec size (Z.of_nat (GESTURE_MASK_SIZE K))); [|lia].
  destruct (Z.eqb_spec (FEAT_DISABLE K) (FEAT_ENABLE K)); [congruence|].
  rewrite Z.eqb_refl.
  cbn [snd gesture_mask set_gesture_mask set_refreshGestureMask].
  destruct (setFeatures_res w _ _ _ <? OK K); repeat split; reflexivity.
Qed.

Lemma disableGesture_sends_cleared_mask_witness :
  let K := sample_headers in
  let o := disableGesture K (calm_world []) (Some [0x01; 0x80]) 2
             sample_state in
  FEAT_ENABLE K <> FEAT_DISABLE K
  /\ 2 <= Z.of_nat (GESTURE_MASK_SIZE K)
  /\ gesture_mask (st o) = [0x20; 0; 0; 0]
  /\ calls o = [setFeatures 0x03 [0x20; 0; 0; 0] 4]
  /\ ret o = 0.
Proof.
  intros K o.
  assert (Hne : FEAT_ENABLE K <> FEAT_DISABLE K) by (cbn; discriminate).
  assert (Hsize : 2 <= Z.of_nat (GESTURE_MASK_SIZE K)) by (cbn; lia).
  split; [exact Hne|]. split; [exact Hsize|].
  pose proof (disableGesture_sends_cleared_mask K (calm_world [])
                [0x01; 0x80] 2 sample_state Hne Hsize) as (Hm & Hc & Hr & _).
  split; [exact Hm|]. split; [exact Hc | exact Hr].
Defined.

(** X9: with a NULL mask, any size that passes the size check and a mask
    size that fits in an [int], [disableGesture] sends
    [GESTURE_MASK_SIZE] zero bytes, whatever the stored mask is, and leaves
    the state untouched. *)
Theorem disableGesture_null_sends_zeros (K : Headers) (w : World)
    (size : Z) (s : State) :
  (GESTURE_MASK_SIZE K <= sizeof_int)%nat ->
  size <= Z.of_nat (GESTURE_MASK_SIZE K) ->
  let o := disableGesture K w None size s in
  calls o
  = [setFeatures (FEAT_SEL_GESTURE K) (replicate (GESTURE_MASK_SIZE K) 0)
       (Z.of_nat (GESTURE_MASK_SIZE K))]
  /\ st o = s.
Proof.
  intros Hfit Hsize. cbn zeta. unfold disableGesture.
  destruct (Z.leb_spec size (Z.of_nat (GESTURE_MASK_SIZE K))); [|lia].
  rewrite take_replicate, Nat.min_l by exact Hfit.
  destruct (setFeatures_res w _ _ _ <? OK K); split; reflexivity.
Qed.

Lemma disableGesture_null_sends_zeros_witness :
  (GESTURE_MASK_SIZE sample_headers <= sizeof_int)%nat
  /\ 3 <= Z.of_nat (GESTURE_MASK_SIZE sample_headers)
  /\ calls (disableGesture sample_headers (calm_world []) None 3 sample_state)
     = [setFeatures 0x03 [0; 0; 0; 0] 4]
  /\ st (disableGesture sample_headers (calm_world []) None 3 sample_state)
     = sample_state.
Proof.
  assert (H : (GESTURE_MASK_SIZE sample_headers <= sizeof_int)%nat)
    by (unfold sizeof_int; cbn; lia).
  assert (Hsize : 3 <= Z.of_nat (GESTURE_MASK_SIZE sample_headers))
    by (cbn; lia).
  split; [exact H|]. split; [exact Hsize|].
  exact (disableGesture_null_sends_zeros sample_headers (calm_world []) 3
           sample_state H Hsize).
Defined.

(** ** Mode entry *)

(** Case analysis on the four result codes that [enterGestureMode] tests
    and on whether it pushes the mask. *)
Ltac mode_entry_cases K w reload s :=
  unfold enterGestureMode, enableGesture, gesture_mode_scan,
    gesture_mode_END;
  fold (mode_entry_pushes reload s);
  destruct (Z.leb_spec 0 (Z.of_nat (GESTURE_MASK_SIZE K))); [|lia];
  cbn zeta;
  destruct (mode_entry_pushes reload s) eqn:Epushes;
  destruct (setFeatures_res w (FEAT_SEL_GESTURE K) (gesture_mask s)
              (Z.of_nat (GESTURE_MASK_SIZE K)) <? OK K) eqn:Epush;
  destruct (setScanMode_res w (SCAN_MODE_LOW_POWER K) 0 <? OK K) eqn:Escan;
  destruct (enableInterrupt_res w <? OK K) eqn:Een;
  cbn [ret st calls]; rewrite ?Epush, ?Escan, ?Een, ?Z.ltb_irrefl;
  cbn [ret st calls app andb orb gesture_mask set_gesture_mask
       set_refreshGestureMask refreshGestureMask gesture_coordinates_x
       gesture_coordinates_y gesture_coords_reported].

Ltac state_simpl :=
  cbn [ret st calls app gesture_mask set_gesture_mask set_refreshGestureMask
       refreshGestureMask gesture_coordinates_x gesture_coordinates_y
       gesture_coords_reported].

(** X10: without reload and without a pending mask update,
    [enterGestureMode] makes no push: after the interrupt disable it only
    requests the scan mode and re-enables the interrupt, and the state is
    untouched. *)
Theorem enterGestureMode_without_push (K : Headers) (w : World)
    (reload : Z) (s : State) :
  OK K <= disableInterruptNoSync_res w ->
  reload <> 1 ->
  refreshGestureMask s <> 1 ->
  let o := enterGestureMode K w reload s in
  calls o = [fts_disableInterruptNoSync;
             setScanMode (SCAN_MODE_LOW_POWER K) 0;
             fts_enableInterrupt]
  /\ st o = s.
Proof.
  intros Hdis Hreload Hflag. apply Z.ltb_ge in Hdis. cbn zeta.
  assert (Hp : mode_entry_pushes reload s = false).
  { unfold mode_entry_pushes.
    destruct (Z.eqb_spec reload 1); [contradiction|].
    destruct (Z.eqb_spec (refreshGestureMask s) 1); [contradiction|].
    reflexivity. }
  mode_entry_cases K w reload s; rewrite Hdis; try discriminate;
    split; reflexivity.
Qed.

Lemma enterGestureMode_without_push_witness :
  let K := sample_headers in
  let o := enterGestureMode K (calm_world []) 0 sample_state in
  OK K <= disableInterruptNoSync_res (calm_world [])
  /\ 0 <> 1
  /\ refreshGestureMask sample_state <> 1
  /\ calls o = [fts_disableInterruptNoSync; setScanMode 0x03 0;
                fts_enableInterrupt]
  /\ st o = sample_state.
Proof.
  intros K o.
  assert (Hdis : OK K <= disableInterruptNoSync_res (calm_world []))
    by (cbn; lia).
  assert (Hr : 0 <> 1) by discriminate.
  assert (Hf : refreshGestureMask sample_state <> 1) by (cbn; discriminate).
  repeat (split; [assumption|]).
  exact (enterGestureMode_without_push K (calm_world []) 0 sample_state
           Hdis Hr Hf).
Defined.

(** X11: a mask update that succeeded is pushed by the next mode entry,
    with or without reload: after the interrupt disable,
    [enterGestureMode] sends the updated mask; the scan-mode request
    follows and the flag is cleared when that push succeeds, and the flag
    stays set when it fails. *)
Theorem enterGestureMode_pushes_pending_update (K : Headers) (w : World)
    (D : list Z) (size en reload : Z) (s : State) :
  size <= Z.of_nat (GESTURE_MASK_SIZE K) ->
  en = FEAT_ENABLE K \/ en = FEAT_DISABLE K ->
  OK K <= disableInterruptNoSync_res w ->
  let s1 := snd (updateGestureMask K (Some D) size en s) in
  let o := enterGestureMode K w reload s1 in
  let sent := setFeatures (FEAT_SEL_GESTURE K) (gesture_mask s1)
                (Z.of_nat (GESTURE_MASK_SIZE K)) in
  let push := setFeatures_res w (FEAT_SEL_GESTURE K) (gesture_mask s1)
                (Z.of_nat (GESTURE_MASK_SIZE K)) in
  calls o
  = [fts_disableInterruptNoSync; sent]
    ++ (if push <? OK K then []
        else [setScanMode (SCAN_MODE_LOW_POWER K) 0])
    ++ [fts_enableInterrupt]
  /\ refreshGestureMask (st o) = (if push <? OK K then 1 else 0)
  /\ gesture_mask (st o) = gesture_mask s1.
Proof.
  intros Hsize Hen Hdis. apply Z.ltb_ge in Hdis. cbn zeta.
  set (s1 := snd (updateGestureMask K (Some D) size en s)).
  assert (Hflag : refreshGestureMask s1 = 1).
  { subst s1. unfold updateGestureMask.
    destruct (Z.leb_spec size (Z.of_nat (GESTURE_MASK_SIZE K))); [|lia].
    destruct (Z.eqb_spec en (FEAT_ENABLE K)); [reflexivity|].
    destruct (Z.eqb_spec en (FEAT_DISABLE K)); [reflexivity|].
    destruct Hen; contradiction. }
  assert (Hp : mode_entry_pushes reload s1 = true).
  { unfold mode_entry_pushes. rewrite Hflag. apply orb_true_r. }
  clearbody s1.
  mode_entry_cases K w reload s1; rewrite Hdis; try discriminate;
    state_simpl; rewrite ?Hflag; repeat split; reflexivity.
Qed.

Lemma enterGestureMode_pushes_pending_update_witness :
  let K := sample_headers in
  let s1 := snd (updateGestureMask K (Some [0x02]) 1 (FEAT_ENABLE K)
                   sample_state) in
  let o := enterGestureMode K (calm_world []) 0 s1 in
  1 <= Z.of_nat (GESTURE_MASK_SIZE K)
  /\ OK K <= disableInterruptNoSync_res (calm_world [])
  /\ calls o = [fts_disableInterruptNoSync;
                setFeatures 0x03 [0x23; 0x80; 0; 0] 4;
                setScanMode 0x03 0; fts_enableInterrupt]
  /\ refreshGestureMask (st o) = 0.
Proof.
  intros K s1 o.
  assert (Hsize : 1 <= Z.of_nat (GESTURE_MASK_SIZE K)) by (cbn; lia).
  assert (Hdis : OK K <= disableInterruptNoSync_res (calm_world []))
    by (cbn; lia).
  split; [exact Hsize|]. split; [exact Hdis|].
  pose proof (enterGestureMode_pushes_pending_update K (calm_world [])
                [0x02] 1 (FEAT_ENABLE K) 0 sample_state Hsize
                (or_introl eq_refl) Hdis) as (Hc & Hf & _).
  split; [exact Hc | exact Hf].
Defined.

(** X12: whatever [reload] and the state are, once the interrupt disable
    has succeeded the first call is that disable and the last call is the
    interrupt re-enable, made exactly once; there is at most one push and
    at most one scan-mode request. *)
Theorem enterGestureMode_reenables_last (K : Headers) (w : World)
    (reload : Z) (s : State) :
  OK K <= disableInterruptNoSync_res w ->
  let o := enterGestureMode K w reload s in
  head (calls o) = Some fts_disableInterruptNoSync
  /\ list.last (calls o) = Some fts_enableInterrupt
  /\ count_calls is_enableInterrupt (calls o) = 1%nat
  /\ (count_calls is_setFeatures (calls o) <= 1)%nat
  /\ (count_calls is_setScanMode (calls o) <= 1)%nat.
Proof.
  intros Hdis. apply Z.ltb_ge in Hdis. cbn zeta.
  mode_entry_cases K w reload s; rewrite Hdis; cbn;
    repeat split; reflexivity || lia.
Qed.

Lemma enterGestureMode_reenables_last_witness :
  let K := sample_headers in
  let o := enterGestureMode K world_push_fails 1 sample_state in
  OK K <= disableInterruptNoSync_res world_push_fails
  /\ calls o = [fts_disableInterruptNoSync;
                setFeatures 0x03 [0x21; 0x80; 0; 0] 4;
                fts_enableInterrupt]
  /\ list.last (calls o) = Some fts_enableInterrupt.
Proof.
  intros K o.
  assert (Hdis : OK K <= disableInterruptNoSync_res world_push_fails)
    by (cbn; lia).
  split; [exact Hdis|]. split; [reflexivity|].
  exact (proj1 (proj2 (enterGestureMode_reenables_last K world_push_fails 1
                         sample_state Hdis))).
Defined.





(** X14: when the interrupt disable and the interrupt re-enable both
    succeed, [enterGestureMode] returns the code of the first step that
    failed, unchanged: the code of the push if a push was due and failed,
    else the code of the scan-mode request if that failed, else [OK]. *)
Theorem enterGestureMode_return_code (K : Headers) (w : World)
    (reload : Z) (s : State) :
  OK K <= disableInterruptNoSync_res w ->
  OK K <= enableInterrupt_res w ->
  let push := setFeatures_res w (FEAT_SEL_GESTURE K) (gesture_mask s)
                (Z.of_nat (GESTURE_MASK_SIZE K)) in
  let scan := setScanMode_res w (SCAN_MODE_LOW_POWER K) 0 in
  ret (enterGestureMode K w reload s)
  = if mode_entry_pushes reload s && (push <? OK K) then push
    else if scan <? OK K then scan else OK K.
Proof.
  intros Hdis Hen. apply Z.ltb_ge in Hdis. apply Z.ltb_ge in Hen.
  cbn zeta.
  mode_entry_cases K w reload s; rewrite Hdis; try discriminate;
    reflexivity.
Qed.

Lemma enterGestureMode_return_code_witness :
  let K := sample_headers in
  OK K <= disableInterruptNoSync_res world_push_fails
  /\ OK K <= enableInterrupt_res world_push_fails
  /\ ret (enterGestureMode K world_push_fails 1 sample_state)
     = sample_bus_error
  /\ ret (enterGestureMode K world_push_fails 0 sample_state) = OK K.
Proof.
  intros K.
  assert (Hdis : OK K <= disableInterruptNoSync_res world_push_fails)
    by (cbn; lia).
  assert (Hen : OK K <= enableInterrupt_res world_push_fails) by (cbn; lia).
  split; [exact Hdis|]. split; [exact Hen|]. split.
  - exact (enterGestureMode_return_code K world_push_fails 1 sample_state
             Hdis Hen).
  - exact (enterGestureMode_return_code K world_push_fails 0 sample_state
             Hdis Hen).
Defined.

(** X15: [enterGestureMode] never changes the stored mask, the coordinate
    arrays or the stored count, whatever fails; the refresh flag is left as
    it was or cleared. *)
Theorem enterGestureMode_frame (K : Headers) (w : World) (reload : Z)
    (s : State) :
  let o := enterGestureMode K w reload s in
  gesture_mask (st o) = gesture_mask s
  /\ gesture_coordinates_x (st o) = gesture_coordinates_x s
  /\ gesture_coordinates_y (st o) = gesture_coordinates_y s
  /\ gesture_coords_reported (st o) = gesture_coords_reported s
  /\ (refreshGestureMask (st o) = refreshGestureMask s
      \/ refreshGestureMask (st o) = 0).
Proof.
  cbn zeta.
  mode_entry_cases K w reload s;
    destruct (disableInterruptNoSync_res w <? OK K);
    cbn [st gesture_mask set_gesture_mask set_refreshGestureMask
         refreshGestureMask gesture_coordinates_x gesture_coordinates_y
         gesture_coords_reported];
    repeat split; (reflexivity || (left; reflexivity) || (right; reflexivity)).
Qed.

(** ** Decoding a gesture report: what is stored *)

Lemma coord12_range (hi lo : Z) : 0 <= coord12 hi lo < 2 ^ 12.
Proof.
  unfold coord12.
  set (v := Z.lor (Z.shiftl (Z.land (u16 hi) 15) 8) (Z.land (u16 lo) 255)).
  assert (H0 : 0 <= v).
  { apply Z.lor_nonneg. split.
    - apply Z.shiftl_nonneg, Z.land_nonneg. right. lia.
    - apply Z.land_nonneg. right. lia. }
  assert (Hmod : v mod 2 ^ 12 = v).
  { apply mod_pow2_id; [lia|]. intros i Hi. subst v.
    rewrite Z.lor_spec, Z.shiftl_spec, !Z.land_spec by lia.
    change 15 with (Z.ones 4). change 255 with (Z.ones 8).
    rewrite !Z.testbit_ones_nonneg by lia.
    destruct (Z.ltb_spec (i - 8) 4); [lia|].
    destruct (Z.ltb_spec i 8); [lia|].
    now rewrite !andb_false_r. }
  pose proof (Z.mod_pos_bound v (2 ^ 12)) as Hb.
  unfold u16. rewrite (Z.mod_small v (2 ^ 16)) by lia. lia.
Qed.

Lemma coords_loop_length (c : nat) (val : list Z) (n : nat) :
  forall (i : nat) (xs ys : list Z),
    length (fst (coords_loop n i c val xs ys)) = length xs
    /\ length (snd (coords_loop n i c val xs ys)) = length ys.
Proof.
  induction n as [|n IH]; intros i xs ys; cbn [coords_loop].
  - split; reflexivity.
  - destruct (IH (S i) (<[i := coord12 (elem val (i * 2 + 1)%nat)
                                 (elem val (i * 2)%nat)]> xs)
                (<[i := coord12 (elem val (c * 2 + i * 2 + 1)%nat)
                          (elem val (c * 2 + i * 2)%nat)]> ys)) as [Hx Hy].
    rewrite Hx, Hy, !length_insert. split; reflexivity.
Qed.

(** X16: the stored coordinates are 12-bit values whatever bytes the
    frame-buffer read leaves: after a successful decode every [x[i]] and
    [y[i]] with [i] below the stored count is in [0, 4096). *)
Theorem readGestureCoords_coordinates_12bit (K : Headers) (w : World)
    (event : list Z) (s : State) (i : nat) :
  wf_state K s ->
  elem event 0%nat = EVT_ID_USER_REPORT K ->
  elem event 1%nat = EVT_TYPE_USER_GESTURE K ->
  OK K <= fst (frame_read K w event) ->
  let o := readGestureCoords K w event s in
  (i < Z.to_nat (gesture_coords_reported (st o)))%nat ->
  0 <= elem (gesture_coordinates_x (st o)) i < 4096
  /\ 0 <= elem (gesture_coordinates_y (st o)) i < 4096.
Proof.
  intros [_ _ Hlx Hly] E0 E1 Hres. cbn zeta. unfold readGestureCoords.
  rewrite E0, E1, !Z.eqb_refl. cbn [andb].
  destruct (frame_read K w event) as [res val]. cbn [fst] in Hres.
  destruct (Z.ltb_spec res (OK K)); [lia|].
  pose proof (report_count_le K event) as Hle.
  set (c := Z.to_nat (report_count K event)) in *.
  pose proof (coords_loop_x c val c 0 (gesture_coordinates_x s)
                (gesture_coordinates_y s) i) as Hx.
  pose proof (coords_loop_y c val c 0 (gesture_coordinates_x s)
                (gesture_coordinates_y s) i) as Hy.
  destruct (coords_loop c 0 c val _ _) as [xs ys]. cbn [fst snd] in *.
  cbn. fold c. intros Hi.
  rewrite Hx, Hy by lia. repeat case_decide; try lia.
  change 4096 with (2 ^ 12). split; apply coord12_range.
Qed.

Lemma readGestureCoords_coordinates_12bit_witness :
  let K := sample_headers in
  let event : list Z := [0x53; 0x03; 0; 0x10; 0x20; 1] in
  let w := calm_world [0xFF; 0xFF; 0xFF; 0xFF] in
  let o := readGestureCoords K w event (initial_state K) in
  wf_state K (initial_state K)
  /\ OK K <= fst (frame_read K w event)
  /\ elem (gesture_coordinates_x (st o)) 0 = 0x0FFF
  /\ 0 <= elem (gesture_coordinates_x (st o)) 0 < 4096.
Proof.
  intros K event w o.
  assert (Hwf : wf_state K (initial_state K)).
  { split; cbn; try reflexivity. repeat constructor; unfold is_u8; lia. }
  assert (Hres : OK K <= fst (frame_read K w event)) by (cbn; lia).
  assert (Hi : (0 < Z.to_nat (gesture_coords_reported (st o)))%nat)
    by (vm_compute; lia).
  split; [exact Hwf|]. split; [exact Hres|]. split; [reflexivity|].
  exact (proj1 (readGestureCoords_coordinates_12bit K w event
                  (initial_state K) 0 Hwf eq_refl eq_refl Hres Hi)).
Defined.

(** X17: [readGestureCoords] keeps the dimensions of the arrays, never
    touches the stored mask or the refresh flag, makes at most one call,
    and leaves every coordinate from the index of the (lowered) report
    count on as it was, whether it succeeds or fails. *)
Theorem readGestureCoords_frame (K : Headers) (w : World) (event : list Z)
    (s : State) :
  wf_state K s ->
  let o := readGestureCoords K w event s in
  wf_state K (st o)
  /\ gesture_mask (st o) = gesture_mask s
  /\ refreshGestureMask (st o) = refreshGestureMask s
  /\ (length (calls o) <= 1)%nat
  /\ (forall j : nat, (Z.to_nat (report_count K event) <= j)%nat ->
        elem (gesture_coordinates_x (st o)) j
        = elem (gesture_coordinates_x s) j
        /\ elem (gesture_coordinates_y (st o)) j
           = elem (gesture_coordinates_y s) j).
Proof.
  intros Hwf. pose proof Hwf as [Hlm Hbm Hlx Hly].
  cbn zeta. unfold readGestureCoords.
  destruct (_ && _).
  2:{ cbn. repeat split; try assumption; lia. }
  destruct (frame_read K w event) as [res val].
  destruct (res <? OK K).
  { cbn. repeat split; try assumption; lia. }
  pose proof (report_count_le K event) as Hle.
  set (c := Z.to_nat (report_count K event)) in *.
  pose proof (coords_loop_length c val c 0 (gesture_coordinates_x s)
                (gesture_coordinates_y s)) as [Hlx' Hly'].
  pose proof (coords_loop_x c val c 0 (gesture_coordinates_x s)
                (gesture_coordinates_y s)) as Hx.
  pose proof (coords_loop_y c val c 0 (gesture_coordinates_x s)
                (gesture_coordinates_y s)) as Hy.
  destruct (coords_loop c 0 c val _ _) as [xs ys]. cbn [fst snd] in *.
  cbn. split; [|split; [reflexivity|split; [reflexivity|split; [lia|]]]].
  - split; cbn; congruence.
  - intros j Hj. rewrite Hx, Hy by lia.
    repeat case_decide; try lia; split; reflexivity.
Qed.

Lemma readGestureCoords_frame_witness :
  let K := sample_headers in
  let event : list Z := [0x53; 0x03; 0; 0x10; 0x20; 0] in
  let o := readGestureCoords K (calm_world []) event sample_state in
  wf_state K sample_state
  /\ gesture_coords_reported (st o) = 0
  /\ gesture_mask (st o) = [0x21; 0x80; 0; 0]
  /\ elem (gesture_coordinates_x (st o)) 0
     = elem (gesture_coordinates_x sample_state) 0.
Proof.
  intros K event o.
  assert (Hwf : wf_state K sample_state).
  { split; cbn; try reflexivity. repeat constructor; unfold is_u8; lia. }
  split; [exact Hwf|]. split; [reflexivity|].
  pose proof (readGestureCoords_frame K (calm_world []) event sample_state
                Hwf) as (_ & Hm & _ & _ & Hrest).
  split; [exact Hm|].
  apply (Hrest 0%nat). vm_compute. lia.
Defined.

Lemma readGestureCoords_count_ok (K : Headers) (w : World) (event : list Z)
    (s : State) :
  is_u8 (elem event 5%nat) -> coords_count_ok K s ->
  coords_count_ok K (st (readGestureCoords K w event s)).
Proof.
  unfold is_u8. intros H5 Hs. unfold readGestureCoords.
  destruct (_ && _); [|exact Hs].
  destruct (frame_read K w event) as [res val].
  destruct (res <? OK K); [now left|].
  destruct (coords_loop _ _ _ _ _ _) as [xs ys]. right. cbn.
  pose proof (report_count_le K event).
  unfold report_count in *. destruct (_ >? _); lia.
Qed.

(** X18: the stored count is always the sentinel [ERROR_OP_NOT_ALLOW] or a
    count between 0 and [GESTURE_MAX_COORDS_PAIRS_REPORT]: this holds at
    load time and after any sequence of reports whose count byte is a byte,
    whatever the headers are and whichever reads fail. *)
Theorem read_all_count_ok (K : Headers) (reqs : list (World * list Z)) :
  Forall (fun r => is_u8 (elem (snd r) 5%nat)) reqs ->
  coords_count_ok K (read_all K reqs (initial_state K)).
Proof.
  intros Hreqs. unfold read_all.
  assert (H0 : coords_count_ok K (initial_state K)) by (left; reflexivity).
  revert H0. generalize (initial_state K).
  induction Hreqs as [|r reqs Hr _ IH]; intros s Hs; [exact Hs|].
  cbn [fold_left]. apply IH, readGestureCoords_count_ok; assumption.
Qed.

Lemma read_all_count_ok_witness :
  let K := sample_headers in
  let reqs : list (World * list Z) :=
    [(calm_world [1; 2; 3; 4], [0x53; 0x03; 0; 0x10; 0x20; 200]);
     (world_read_fails, [0x53; 0x03; 0; 0x10; 0x20; 2]);
     (calm_world [1; 2; 3; 4], [0x53; 0x03; 0; 0x10; 0x20; 1])] in
  Forall (fun r => is_u8 (elem (snd r) 5%nat)) reqs
  /\ gesture_coords_reported (read_all K reqs (initial_state K)) = 1
  /\ coords_count_ok K (read_all K reqs (initial_state K)).
Proof.
  intros K reqs.
  assert (H : Forall (fun r => is_u8 (elem (snd r) 5%nat)) reqs)
    by (repeat constructor; unfold is_u8; cbn; lia).
  split; [exact H|]. split; [reflexivity|].
  exact (read_all_count_ok K reqs H).
Defined.

(** ** Invariants of the mask operations *)

Lemma or_loop_bytes (mask : list Z) (n : nat) :
  forall (i : nat) (gm : list Z),
    Forall is_u8 gm -> Forall is_u8 (or_loop n i mask gm).
Proof.
  induction n as [|n IH]; intros i gm H; cbn [or_loop]; [exact H|].
  apply IH, Forall_insert; [exact H | apply is_u8_u8].
Qed.

Lemma clear_loop_bytes (mask : list Z) (n : nat) :
  forall (i : nat) (gm : list Z),
    Forall is_u8 gm -> Forall is_u8 (clear_loop n i mask gm).
Proof.
  induction n as [|n IH]; intros i gm H; cbn [clear_loop]; [exact H|].
  apply IH, Forall_insert; [exact H | apply is_u8_u8].
Qed.

(** The part of the state the mask operations work on. *)
Lemma wf_state_mask (K : Headers) (s s' : State) :
  wf_state K s ->
  length (gesture_mask s') = length (gesture_mask s) ->
  Forall is_u8 (gesture_mask s') ->
  gesture_coordinates_x s' = gesture_coordinates_x s ->
  gesture_coordinates_y s' = gesture_coordinates_y s ->
  wf_state K s'.
Proof.
  intros [Hl Hb Hx Hy] Hl' Hb' Hx' Hy'. split; congruence.
Qed.

Lemma updateGestureMask_wf (K : Headers) (mask : option (list Z))
    (size en : Z) (s : State) :
  wf_state K s -> wf_state K (snd (updateGestureMask K mask size en s)).
Proof.
  intros Hwf. pose proof Hwf as [_ Hb _ _]. unfold updateGestureMask.
  destruct mask as [m|]; [|exact Hwf].
  destruct (_ <=? _); [|exact Hwf].
  destruct (_ =? _).
  - apply (wf_state_mask K s); cbn;
      [exact Hwf | apply or_loop_length | now apply or_loop_bytes | ..];
      reflexivity.
  - destruct (_ =? _); [|exact Hwf].
    apply (wf_state_mask K s); cbn;
      [exact Hwf | apply clear_loop_length | now apply clear_loop_bytes | ..];
      reflexivity.
Qed.

Lemma enableGesture_wf (K : Headers) (w : World) (mask : option (list Z))
    (size : Z) (s : State) :
  wf_state K s -> wf_state K (st (enableGesture K w mask size s)).
Proof.
  intros Hwf. pose proof Hwf as [_ Hb _ _]. unfold enableGesture.
  destruct (_ <=? _); [|exact Hwf].
  cbn zeta. destruct (setFeatures_res w _ _ _ <? OK K); cbn [st];
    (apply (wf_state_mask K s); [exact Hwf | ..]; cbn;
     destruct mask; try reflexivity;
     [apply or_loop_length | now apply or_loop_bytes | exact Hb]).
Qed.

Lemma disableGesture_wf (K : Headers) (w : World) (mask : option (list Z))
    (size : Z) (s : State) :
  wf_state K s -> wf_state K (st (disableGesture K w mask size s)).
Proof.
  intros Hwf. pose proof Hwf as [_ Hb _ _]. unfold disableGesture.
  destruct (_ <=? _); [|exact Hwf].
  destruct mask as [m|]; cbn zeta;
    destruct (setFeatures_res w _ _ _ <? OK K); cbn [st]; try exact Hwf;
    (apply (wf_state_mask K s); [exact Hwf | ..]; cbn; try reflexivity;
     [apply clear_loop_length | now apply clear_loop_bytes]).
Qed.

Lemma enterGestureMode_wf (K : Headers) (w : World) (reload : Z)
    (s : State) :
  wf_state K s -> wf_state K (st (enterGestureMode K w reload s)).
Proof.
  intros Hwf. pose proof Hwf as [_ Hb _ _].
  mode_entry_cases K w reload s;
    destruct (disableInterruptNoSync_res w <? OK K); state_simpl;
    try exact Hwf;
    (apply (wf_state_mask K s); [exact Hwf | ..]; cbn;
     reflexivity || exact Hb).
Qed.

Lemma initial_state_wf (K : Headers) : wf_state K (initial_state K).
Proof.
  split; cbn; rewrite ?length_replicate; try reflexivity.
  apply Forall_replicate. unfold is_u8. lia.
Qed.

(** X19: the stored mask always has [GESTURE_MASK_SIZE] bytes, each in
    0..255, and the coordinate arrays keep their dimension: this holds in
    every state reached from load time through [updateGestureMask],
    [enableGesture], [disableGesture] and [enterGestureMode], whatever the
    arguments are and whatever fails. *)
Theorem run_preserves_wf (K : Headers) (ops : list Op) :
  wf_state K (driver (run K ops (initial_system K))).
Proof.
  unfold run.
  assert (H0 : wf_state K (driver (initial_system K)))
    by apply initial_state_wf.
  revert H0. generalize (initial_system K).
  induction ops as [|op ops IH]; intros y Hy; [exact Hy|].
  cbn [fold_left]. apply IH.
  destruct op as [mask size en|w mask size|w mask size|w reload];
    cbn [run_op after_outcome driver].
  - now apply updateGestureMask_wf.
  - now apply enableGesture_wf.
  - now apply disableGesture_wf.
  - now apply enterGestureMode_wf.
Qed.

(** X20: the mask operations never touch the coordinates: after any
    sequence of [updateGestureMask], [enableGesture], [disableGesture] and
    [enterGestureMode] the two coordinate arrays and the stored count are
    what they were. *)
Theorem run_keeps_coordinates (K : Headers) (ops : list Op) (y : System) :
  let y' := run K ops y in
  gesture_coordinates_x (driver y') = gesture_coordinates_x (driver y)
  /\ gesture_coordinates_y (driver y') = gesture_coordinates_y (driver y)
  /\ gesture_coords_reported (driver y') = gesture_coords_reported (driver y).
Proof.
  cbn zeta. unfold run. revert y.
  induction ops as [|op ops IH]; intros y; [repeat split; reflexivity|].
  cbn [fold_left]. destruct (IH (run_op K y op)) as (Hx & Hy & Hc).
  rewrite Hx, Hy, Hc. clear IH Hx Hy Hc.
  destruct y as [s fw].
  destruct op as [mask size en|w mask size|w mask size|w reload];
    cbn [run_op after_outcome driver].
  - unfold updateGestureMask. destruct mask; [|repeat split; reflexivity].
    destruct (_ <=? _); [|repeat split; reflexivity].
    destruct (_ =? _); [repeat split; reflexivity|].
    destruct (_ =? _); repeat split; reflexivity.
  - unfold enableGesture. destruct (_ <=? _); [|repeat split; reflexivity].
    cbn zeta. destruct (setFeatures_res w _ _ _ <? OK K);
      repeat split; reflexivity.
  - unfold disableGesture. destruct (_ <=? _); [|repeat split; reflexivity].
    destruct mask; cbn zeta; destruct (setFeatures_res w _ _ _ <? OK K);
      repeat split; reflexivity.
  - mode_entry_cases K w reload s;
      destruct (disableInterruptNoSync_res w <? OK K); state_simpl;
      repeat split; reflexivity.
Qed.

(** ** The mask store and the scan together *)

Lemma is_u8_lor (a b : Z) : is_u8 a -> is_u8 b -> is_u8 (Z.lor a b).
Proof.
  unfold is_u8. intros Ha Hb.
  assert (H0 : 0 <= Z.lor a b) by (apply Z.lor_nonneg; lia).
  split; [exact H0|].
  rewrite <- (mod_pow2_id 8 (Z.lor a b)).
  - pose proof (Z.mod_pos_bound (Z.lor a b) (2 ^ 8)). lia.
  - lia.
  - intros i Hi. rewrite Z.lor_spec.
    rewrite (small_testbit_high 8 a i), (small_testbit_high 8 b i) by lia.
    reflexivity.
Qed.

(** X21: enabling a gesture makes the scan find it: after a merge whose
    delta has a non-zero byte among its [size] bytes, [isAnyGestureActive]
    returns [FEAT_ENABLE]. *)
Theorem isAnyGestureActive_after_merge (K : Headers) (D : list Z)
    (size : Z) (s : State) (i : nat) :
  wf_state K s ->
  size <= Z.of_nat (GESTURE_MASK_SIZE K) ->
  (i < Z.to_nat size)%nat ->
  is_u8 (elem D i) ->
  elem D i <> 0 ->
  isAnyGestureActive K
    (snd (updateGestureMask K (Some D) size (FEAT_ENABLE K) s))
  = FEAT_ENABLE K.
Proof.
  intros [Hlen Hbytes _ _] Hsize Hi HD Hne.
  apply (isAnyGestureActive_enabled K _ i); [lia|].
  unfold updateGestureMask.
  destruct (Z.leb_spec size (Z.of_nat (GESTURE_MASK_SIZE K))); [|lia].
  rewrite Z.eqb_refl.
  cbn [snd gesture_mask set_gesture_mask set_refreshGestureMask].
  rewrite or_loop_elem by lia. case_decide; [|lia].
  rewrite u8_small by (apply is_u8_lor; [apply is_u8_elem, Hbytes | exact HD]).
  intros E. apply Z.lor_eq_0_iff in E. destruct E as [_ E]. contradiction.
Qed.

Lemma isAnyGestureActive_after_merge_witness :
  let K := sample_headers in
  wf_state K (initial_state K)
  /\ 2 <= Z.of_nat (GESTURE_MASK_SIZE K)
  /\ is_u8 (elem [0; 0x10] 1)
  /\ elem [0; 0x10] 1 <> 0
  /\ isAnyGestureActive K (initial_state K) = FEAT_DISABLE K
  /\ isAnyGestureActive K
       (snd (updateGestureMask K (Some [0; 0x10]) 2 (FEAT_ENABLE K)
               (initial_state K)))
     = FEAT_ENABLE K.
Proof.
  intros K.
  assert (Hwf : wf_state K (initial_state K)).
  { split; cbn; try reflexivity. repeat constructor; unfold is_u8; lia. }
  assert (Hsize : 2 <= Z.of_nat (GESTURE_MASK_SIZE K)) by (cbn; lia).
  assert (Hi : (1 < Z.to_nat 2)%nat) by (cbn; lia).
  assert (HD : is_u8 (elem [0; 0x10] 1)) by (unfold is_u8; cbn; lia).
  assert (Hne : elem [0; 0x10] 1 <> 0) by (cbn; discriminate).
  repeat (split; [assumption|]). split; [reflexivity|].
  exact (isAnyGestureActive_after_merge K [0; 0x10] 2 (initial_state K) 1
           Hwf Hsize Hi HD Hne).
Defined.

(** X22: enabling gestures on an all-zero mask and disabling the same
    delta gives the all-zero mask back, and [isAnyGestureActive] then
    returns [FEAT_DISABLE]. *)
Theorem merge_then_clear_from_zero (K : Headers) (D : list Z) (size : Z)
    (s : State) :
  gesture_mask s = replicate (GESTURE_MASK_SIZE K) 0 ->
  (0 < GESTURE_MASK_SIZE K)%nat ->
  FEAT_ENABLE K <> FEAT_DISABLE K ->
  size <= Z.of_nat (GESTURE_MASK_SIZE K) ->
  let s1 := snd (updateGestureMask K (Some D) size (FEAT_ENABLE K) s) in
  let s2 := snd (updateGestureMask K (Some D) size (FEAT_DISABLE K) s1) in
  gesture_mask s2 = replicate (GESTURE_MASK_SIZE K) 0
  /\ isAnyGestureActive K s2 = FEAT_DISABLE K.
Proof.
  intros Hzero Hpos Hne Hsize. cbn zeta.
  assert (Hz : forall j : nat,
             elem (replicate (GESTURE_MASK_SIZE K) 0) j = 0).
  { intros j. unfold elem.
    destruct (replicate _ _ !! j) as [v|] eqn:E; [|reflexivity].
    apply lookup_replicate in E. destruct E as [-> _]. reflexivity. }
  assert (Hmask : gesture_mask
            (snd (updateGestureMask K (Some D) size (FEAT_DISABLE K)
                    (snd (updateGestureMask K (Some D) size (FEAT_ENABLE K)
                            s))))
          = replicate (GESTURE_MASK_SIZE K) 0).
  { unfold updateGestureMask.
    destruct (Z.leb_spec size (Z.of_nat (GESTURE_MASK_SIZE K))); [|lia].
    rewrite !Z.eqb_refl.
    destruct (Z.eqb_spec (FEAT_DISABLE K) (FEAT_ENABLE K)); [congruence|].
    cbn [snd gesture_mask set_gesture_mask set_refreshGestureMask].
    rewrite Hzero. apply list_eq_elem.
    - now rewrite clear_loop_length, or_loop_length.
    - intros j _.
      rewrite clear_loop_elem
        by (rewrite or_loop_length, length_replicate; lia).
      rewrite or_loop_elem by (rewrite length_replicate; lia).
      rewrite !Hz. case_decide; [|reflexivity].
      rewrite set_then_clear_byte. reflexivity. }
  split; [exact Hmask|].
  apply isAnyGestureActive_disabled; [exact Hpos|].
  intros j _. rewrite Hmask. apply Hz.
Qed.

Lemma merge_then_clear_from_zero_witness :
  let K := sample_headers in
  let s1 := snd (updateGestureMask K (Some [0x21; 0x80]) 2 (FEAT_ENABLE K)
                   (initial_state K)) in
  let s2 := snd (updateGestureMask K (Some [0x21; 0x80]) 2 (FEAT_DISABLE K)
                   s1) in
  (0 < GESTURE_MASK_SIZE K)%nat
  /\ FEAT_ENABLE K <> FEAT_DISABLE K
  /\ 2 <= Z.of_nat (GESTURE_MASK_SIZE K)
  /\ gesture_mask s1 = [0x21; 0x80; 0; 0]
  /\ gesture_mask s2 = [0; 0; 0; 0]
  /\ isAnyGestureActive K s2 = FEAT_DISABLE K.
Proof.
  intros K s1 s2.
  assert (Hpos : (0 < GESTURE_MASK_SIZE K)%nat) by (cbn; lia).
  assert (Hne : FEAT_ENABLE K <> FEAT_DISABLE K) by (cbn; discriminate).
  assert (Hsize : 2 <= Z.of_nat (GESTURE_MASK_SIZE K)) by (cbn; lia).
  repeat (split; [assumption|]). split; [reflexivity|].
  exact (merge_then_clear_from_zero K [0x21; 0x80] 2 (initial_state K)
           eq_refl Hpos Hne Hsize).
Defined.
